(** * Roster and attendance tracker (src/index.tsx): embedding and properties

    The program is a single React component file.  Its logic is a schema
    validator for imported JSON, a roster store (add, edit, delete,
    set-attendance, import), derived views (filter, counters, pagination,
    per-member statistics) and a loader with a legacy migration.

    Conventions of the embedding:
    - decoded JSON is [JsValue]; an object is its list of own properties in
      enumeration order, with distinct keys;
    - JSON numbers are integers ([Z]): member ids are the only numbers read
      from JSON, and the program only compares them and adds one;
    - the roster held in React state has the TypeScript type [Member[]]: a
      record with the two closed enumerations as inductive types and the
      attendance object, used as a dictionary, as a [gmap];
    - strings are sequences of bytes (UTF-8); equality, prefix tests and the
      date pattern agree with the UTF-16 strings of the source;
    - what the host provides is a parameter: the collation
      [String.prototype.localeCompare(_, 'ko')], and [Date] parsing. *)

From Stdlib Require Import ZArith List String Ascii DecimalString.
From Stdlib Require Import PrimFloat FloatOps SpecFloat Uint63.
From Stdlib Require OrdersEx.
From stdpp Require Import gmap strings list fin_maps sorting.

Local Open Scope Z_scope.

(** ** Constants and enumerations (lines 5-20) *)

Inductive Position :=
| Moksa | Bumoksa | Samo | Jeondosa | Jangro | Gwonsa
| Jipsa | Seongdo | Cheongnyeon | Haksaeng | Juilhakgyo | Gita.

Inductive AttendanceStatus := Present | Absent.

Definition positionName (p : Position) : string :=
  match p with
  | Moksa => "목사" | Bumoksa => "부목사" | Samo => "사모"
  | Jeondosa => "전도사" | Jangro => "장로" | Gwonsa => "권사"
  | Jipsa => "집사" | Seongdo => "성도" | Cheongnyeon => "청년"
  | Haksaeng => "학생" | Juilhakgyo => "주일학교" | Gita => "기타"
  end.

Definition statusName (s : AttendanceStatus) : string :=
  match s with Present => "출석" | Absent => "결석" end.

Definition allPositions : list Position :=
  [Moksa; Bumoksa; Samo; Jeondosa; Jangro; Gwonsa;
   Jipsa; Seongdo; Cheongnyeon; Haksaeng; Juilhakgyo; Gita].

Definition POSITIONS : list string := map positionName allPositions.
Definition ATTENDANCE_STATUSES : list string := map statusName [Present; Absent].
Definition ALL_FILTER : string := "전체".
Definition ITEMS_PER_PAGE : Z := 15.

Definition includes (xs : list string) (s : string) : bool :=
  existsb (String.eqb s) xs.

Definition positionOfName (s : string) : option Position :=
  List.find (fun p => String.eqb (positionName p) s) allPositions.

Definition statusOfName (s : string) : option AttendanceStatus :=
  List.find (fun a => String.eqb (statusName a) s) [Present; Absent].

(** ** Decoded JSON *)

#[local] Set Warnings "-register-all".

Inductive JsValue :=
| JUndefined
| JNull
| JBool (b : bool)
| JNum (n : Z)
| JStr (s : string)
| JArr (items : list JsValue)
| JObj (fields : list (string * JsValue)).

Definition typeof (v : JsValue) : string :=
  match v with
  | JUndefined => "undefined"
  | JNull => "object"
  | JBool _ => "boolean"
  | JNum _ => "number"
  | JStr _ => "string"
  | JArr _ => "object"
  | JObj _ => "object"
  end.

Definition getField (k : string) (fields : list (string * JsValue)) : JsValue :=
  match List.find (fun kv => String.eqb (fst kv) k) fields with
  | Some kv => snd kv
  | None => JUndefined
  end.

(** [v.k] for the property names this program reads (id, name, position,
    phone, attendance, status): none is an array index, [length] or a
    member of a prototype, so anything but an object yields [undefined]. *)
Definition getProp (v : JsValue) (k : string) : JsValue :=
  match v with
  | JObj fields => getField k fields
  | _ => JUndefined
  end.

Definition decimal (n : Z) : string := NilZero.string_of_int (Z.to_int n).

Fixpoint indexed (i : nat) (items : list JsValue) : list (string * JsValue) :=
  match items with
  | [] => []
  | v :: rest => (decimal (Z.of_nat i), v) :: indexed (S i) rest
  end.

(** The own enumerable properties visited by [for (const date in o)] with
    the [hasOwnProperty] test: the fields of an object, the indices of an
    array. *)
Definition ownEntries (v : JsValue) : list (string * JsValue) :=
  match v with
  | JObj fields => fields
  | JArr items => indexed 0 items
  | _ => []
  end.

Definition isDigit (c : ascii) : bool :=
  let n := nat_of_ascii c in (48 <=? n)%nat && (n <=? 57)%nat.

Definition isHyphen (c : ascii) : bool := Ascii.eqb c "-"%char.

(** [/^\d{4}-\d{2}-\d{2}$/.test(date)] *)
Definition dateKeyRegex (date : string) : bool :=
  match list_ascii_of_string date with
  | [y1; y2; y3; y4; h1; m1; m2; h2; d1; d2] =>
      isDigit y1 && isDigit y2 && isDigit y3 && isDigit y4 && isHyphen h1
      && isDigit m1 && isDigit m2 && isHyphen h2 && isDigit d1 && isDigit d2
  | _ => false
  end.

(** ** Schema validator (lines 314-346)

    The source reports a failure as a message string built from a template.
    Each constructor stands for one template and carries the values that
    the template interpolates; the index is the 1-based [i + 1]. *)

Inductive ValidationError :=
| EmptyInput
| NotAnArray
| ElementNotObject (index : nat)
| MissingId (index : nat)
| MissingName (index : nat)
| InvalidPosition (index : nat) (value : JsValue)
| MissingPhone (index : nat)
| MissingAttendance (index : nat)
| InvalidAttendanceEntry (memberName : JsValue) (date : string) (value : JsValue).

Record ValidationResult := {
  isValid : bool;
  error : option ValidationError;
  validatedMembers : option (list JsValue)
}.

Definition invalid (e : ValidationError) : ValidationResult :=
  {| isValid := false; error := Some e; validatedMembers := None |}.

Definition isPositionValue (v : JsValue) : bool :=
  match v with
  | JStr s => includes POSITIONS s
  | _ => false
  end.

Definition isStatusValue (v : JsValue) : bool :=
  match v with
  | JStr s => includes ATTENDANCE_STATUSES s
  | _ => false
  end.

(** The inner [for ... in] loop: the first entry that breaks the date
    pattern or the status enumeration. *)
Fixpoint checkAttendance (memberName : JsValue) (entries : list (string * JsValue))
  : option ValidationError :=
  match entries with
  | [] => None
  | (date, value) :: rest =>
      if negb (dateKeyRegex date) || negb (isStatusValue value)
      then Some (InvalidAttendanceEntry memberName date value)
      else checkAttendance memberName rest
  end.

Definition isNonNullObject (v : JsValue) : bool :=
  String.eqb (typeof v) "object" && match v with JNull => false | _ => true end.

(** The body of the outer loop for the element at 0-based index [i]. *)
Definition checkMember (i : nat) (member : JsValue) : option ValidationError :=
  if negb (isNonNullObject member) then Some (ElementNotObject (i + 1))
  else if negb (String.eqb (typeof (getProp member "id")) "number")
  then Some (MissingId (i + 1))
  else if negb (String.eqb (typeof (getProp member "name")) "string")
  then Some (MissingName (i + 1))
  else if negb (String.eqb (typeof (getProp member "position")) "string")
          || negb (isPositionValue (getProp member "position"))
  then Some (InvalidPosition (i + 1) (getProp member "position"))
  else if negb (String.eqb (typeof (getProp member "phone")) "string")
  then Some (MissingPhone (i + 1))
  else if negb (isNonNullObject (getProp member "attendance"))
  then Some (MissingAttendance (i + 1))
  else checkAttendance (getProp member "name")
                       (ownEntries (getProp member "attendance")).

(** The outer loop from index [i], with the array built by [push]. *)
Fixpoint validateLoop (i : nat) (data : list JsValue) (validated : list JsValue)
  : ValidationResult :=
  match data with
  | [] => {| isValid := true; error := None; validatedMembers := Some validated |}
  | member :: rest =>
      match checkMember i member with
      | Some e => invalid e
      | None => validateLoop (S i) rest (validated ++ [member])
      end
  end.

Definition validateImportedData (data : JsValue) : ValidationResult :=
  match data with
  | JUndefined | JNull => invalid EmptyInput
  | JArr items => validateLoop 0 items []
  | _ => invalid NotAnArray
  end.

(** ** The roster as typed by the source: [Member[]] (lines 14-20) *)

Record Member := {
  id : Z;
  name : string;
  position : Position;
  phone : string;
  attendance : gmap string AttendanceStatus
}.

(** The decoded form of [JSON.stringify(member)]: the five properties in
    the order of the object literal of [handleAddMember].  The attendance
    entries are listed in the order of the map; every check on them is made
    entry by entry, so the order decides no outcome. *)
Definition attendanceToJson (att : gmap string AttendanceStatus) : JsValue :=
  JObj (map (fun kv => (fst kv, JStr (statusName (snd kv)))) (map_to_list att)).

Definition memberToJson (m : Member) : JsValue :=
  JObj [("id", JNum (id m)); ("name", JStr (name m));
        ("position", JStr (positionName (position m)));
        ("phone", JStr (phone m));
        ("attendance", attendanceToJson (attendance m))].

(** [JSON.parse(JSON.stringify(members, null, 2))]: what the import reads
    back from an exported file (line 561, then line 636). *)
Definition serialize (members : list Member) : JsValue :=
  JArr (map memberToJson members).

(** [handleExportData] (lines 555-562): nothing is written for an empty
    roster. *)
Definition handleExportData (members : list Member) : option JsValue :=
  match members with
  | [] => None
  | _ => Some (serialize members)
  end.

(** The cast [member as Member] of line 342, read as a typed view of a
    decoded object: the five properties of the interface. *)
Definition asStatusEntry (kv : string * JsValue) : option (string * AttendanceStatus) :=
  match snd kv with
  | JStr s => match statusOfName s with
              | Some a => Some (fst kv, a)
              | None => None
              end
  | _ => None
  end.

Definition asAttendance (v : JsValue) : option (gmap string AttendanceStatus) :=
  match mapM asStatusEntry (ownEntries v) with
  | Some entries => Some (list_to_map entries)
  | None => None
  end.

Definition asMember (v : JsValue) : option Member :=
  match getProp v "id" with
  | JNum i =>
    match getProp v "name" with
    | JStr n =>
      match getProp v "position" with
      | JStr p =>
        match getProp v "phone" with
        | JStr ph =>
          match positionOfName p, asAttendance (getProp v "attendance") with
          | Some pos, Some att =>
              Some {| id := i; name := n; position := pos; phone := ph;
                      attendance := att |}
          | _, _ => None
          end
        | _ => None
        end
      | _ => None
      end
    | _ => None
    end
  | _ => None
  end.

(** ** Sorting

    [Array.prototype.sort] is stable, and with a consistent comparator its
    result is the one stable ordering; insertion from the right computes
    it.  [cmp a b > 0] means that [a] goes after [b]. *)

Fixpoint insertSorted {A} (cmp : A -> A -> Z) (x : A) (l : list A) : list A :=
  match l with
  | [] => [x]
  | y :: rest => if 0 <? cmp x y then y :: insertSorted cmp x rest else x :: l
  end.

Definition sortWith {A} (cmp : A -> A -> Z) (l : list A) : list A :=
  foldr (insertSorted cmp) [] l.


(** [Array.prototype.slice(start, end)] *)
Definition relativeIndex (len k : Z) : Z :=
  if k <? 0 then Z.max (len + k) 0 else Z.min k len.

Definition slice {A} (start end_ : Z) (l : list A) : list A :=
  let len := Z.of_nat (length l) in
  let k := relativeIndex len start in
  let final := relativeIndex len end_ in
  take (Z.to_nat (final - k)) (drop (Z.to_nat k) l).

(** ** Roster store (lines 461-522, 641-654) *)

Section Store.

(** [a.localeCompare(b, 'ko')]: negative, zero or positive. *)
Variable localeCompare : string -> string -> Z.

Definition byName (a b : Member) : Z := localeCompare (name a) (name b).

Definition sortMembers (members : list Member) : list Member :=
  sortWith byName members.



(** [{ ...m, ...updatedMemberData }] where [updatedMemberData] has the
    properties id, name, position and phone. *)
Definition handleSaveMember (uId : Z) (uName : string) (uPosition : Position)
    (uPhone : string) (prevMembers : list Member) : list Member :=
  map (fun m =>
         if id m =? uId
         then {| id := uId; name := uName; position := uPosition;
                 phone := uPhone; attendance := attendance m |}
         else m)
      prevMembers.

(** [confirmed] is the answer of [window.confirm]. *)
Definition handleDeleteMember (confirmed : bool) (memberToDelete : Member)
    (prevMembers : list Member) : list Member :=
  if confirmed
  then List.filter (fun m => negb (id m =? id memberToDelete)) prevMembers
  else prevMembers.

(** [newStatus] is a status or the marker '미정' ([None]). *)
Definition handleAttendanceChange (memberId : Z) (date : string)
    (newStatus : option AttendanceStatus) (prevMembers : list Member)
  : list Member :=
  map (fun member =>
         if id member =? memberId
         then
           let newAttendance :=
             match newStatus with
             | None => delete date (attendance member)
             | Some s => <[date := s]> (attendance member)
             end in
           {| id := id member; name := name member;
              position := position member; phone := phone member;
              attendance := newAttendance |}
         else member)
      prevMembers.

(** [handleImportData] from the parsed file on (lines 641-657):
    [confirmation] is the answer of [window.confirm].  The roster is left
    as it was when validation fails or the operator declines. *)
Definition handleImportData (parsedData : JsValue) (confirmation : bool)
    (members : list Member) : list Member :=
  let r := validateImportedData parsedData in
  match validatedMembers r with
  | Some validated =>
      if isValid r && confirmation
      then match mapM asMember validated with
           | Some typed => sortMembers typed
           | None => members
           end
      else members
  | None => members
  end.

End Store.

(** ** Derived views (lines 419-451) *)

Record Counts := { total : nat; present : nat; absent : nat }.

(** [positionFilter === ALL_FILTER || member.position === positionFilter] *)
Definition positionMatch (positionFilter : string) (member : Member) : bool :=
  String.eqb positionFilter ALL_FILTER
  || String.eqb (positionName (position member)) positionFilter.

(** [member.attendance[viewingDate] === status].  [viewingDate] is a date
    string, never the name of a member of [Object.prototype]. *)
Definition attendanceIs (member : Member) (viewingDate status : string) : bool :=
  match attendance member !! viewingDate with
  | Some s => String.eqb (statusName s) status
  | None => false
  end.

(** [statusFilter === ALL_FILTER ||
     (member.attendance[viewingDate] || null) === statusFilter]: a status
    is a non-empty string, so [||] keeps it; a missing entry becomes
    [null], which is identical to no string. *)
Definition statusMatch (statusFilter viewingDate : string) (member : Member) : bool :=
  String.eqb statusFilter ALL_FILTER
  || match attendance member !! viewingDate with
     | Some s => String.eqb (statusName s) statusFilter
     | None => false
     end.

Definition filteredMembers (members : list Member)
    (positionFilter statusFilter viewingDate : string) : list Member :=
  List.filter
    (fun member =>
       positionMatch positionFilter member
       && statusMatch statusFilter viewingDate member)
    members.

Definition attendanceCounts (members : list Member)
    (positionFilter viewingDate : string) : Counts :=
  let membersToCount := List.filter (positionMatch positionFilter) members in
  {| total := length membersToCount;
     present := length (List.filter
                          (fun m => attendanceIs m viewingDate (statusName Present))
                          membersToCount);
     absent := length (List.filter
                         (fun m => attendanceIs m viewingDate (statusName Absent))
                         membersToCount) |}.

(** [Math.ceil(length / pageSize)] for a positive page size; the quotient
    of two array lengths is far from the range where doubles lose
    integers. *)
Definition ceilDiv (n d : Z) : Z := (n + d - 1) / d.

Definition totalPagesFor {A} (pageSize : Z) (filtered : list A) : Z :=
  ceilDiv (Z.of_nat (length filtered)) pageSize.

(** Lines 447-451 with the page size as an argument. *)
Definition paginate {A} (pageSize : Z) (filtered : list A) (currentPage : Z)
  : list A :=
  let startIndex := (currentPage - 1) * pageSize in
  let endIndex := startIndex + pageSize in
  slice startIndex endIndex filtered.

Definition totalPages (filtered : list Member) : Z :=
  totalPagesFor ITEMS_PER_PAGE filtered.

Definition paginatedMembers (filtered : list Member) (currentPage : Z)
  : list Member :=
  paginate ITEMS_PER_PAGE filtered currentPage.

(** ** Per-member statistics (lines 215-228)

    The rates are computed in double precision and printed by
    [Number.prototype.toFixed(0)]; the kernel's binary64 floats are the
    same numbers. *)

(** An array length as a JavaScript number (exact below 2^53). *)
Definition numberOfNat (n : nat) : float :=
  PrimFloat.of_uint63 (Uint63.of_Z (Z.of_nat n)).

(** The integer nearest to [m * 2^e]; of two equally near, the larger. *)
Definition nearestInteger (m : positive) (e : Z) : Z :=
  if 0 <=? e then Z.pos m * 2 ^ e
  else (Z.pos m + 2 ^ (- e - 1)) / 2 ^ (- e).

(** [x.toFixed(0)] for [|x| < 1e21] (beyond that JavaScript switches to
    exponent notation; a percentage is nowhere near). *)
Definition toFixed0 (x : float) : string :=
  match Prim2SF x with
  | S754_nan => "NaN"
  | S754_infinity s => if s then "-Infinity" else "Infinity"
  | S754_zero _ => "0"
  | S754_finite s m e =>
      String.append (if s then "-" else "") (decimal (nearestInteger m e))
  end.

(** [(present / total) * 100] *)
Definition percentFloat (presentCount totalCount : nat) : float :=
  PrimFloat.mul (PrimFloat.div (numberOfNat presentCount)
                               (numberOfNat totalCount))
                (numberOfNat 100).

(** [total > 0 ? ((present / total) * 100).toFixed(0) : 0] *)
Definition rateOf (presentCount totalCount : nat) : JsValue :=
  if (0 <? totalCount)%nat
  then JStr (toFixed0 (percentFloat presentCount totalCount))
  else JNum 0.

Record Stats := {
  presentMonth : nat; totalMonth : nat; monthRate : JsValue;
  presentYear : nat; totalYear : nat; yearRate : JsValue
}.

Section Statistics.

(** [new Date(date).getMonth()]: the 0-based month of the parsed date in
    the local time zone, [None] for an invalid date (NaN). *)
Variable getMonth : string -> option Z.

Definition isPresentEntry (entry : string * AttendanceStatus) : bool :=
  String.eqb (statusName (snd entry)) (statusName Present).

Definition memberStats (member : Member) (year month : Z) : Stats :=
  let yearAtt :=
    List.filter (fun entry => String.prefix (decimal year) (fst entry))
                (map_to_list (attendance member)) in
  let monthAtt :=
    List.filter (fun entry => match getMonth (fst entry) with
                              | Some k => k =? month
                              | None => false
                              end)
                yearAtt in
  let totalYear := length yearAtt in
  let presentYear := length (List.filter isPresentEntry yearAtt) in
  let totalMonth := length monthAtt in
  let presentMonth := length (List.filter isPresentEntry monthAtt) in
  {| presentMonth := presentMonth; totalMonth := totalMonth;
     monthRate := rateOf presentMonth totalMonth;
     presentYear := presentYear; totalYear := totalYear;
     yearRate := rateOf presentYear totalYear |}.

End Statistics.

(** ** Loader and legacy migration (lines 350-374)

    The stored value is an array of objects, as the program writes it;
    an object is its property list. *)

Definition isUndefined (v : JsValue) : bool :=
  match v with JUndefined => true | _ => false end.

(** JavaScript truthiness, as tested by [if (member.status)]. *)
Definition truthy (v : JsValue) : bool :=
  match v with
  | JUndefined | JNull => false
  | JBool b => b
  | JNum n => negb (n =? 0)
  | JStr s => negb (String.eqb s "")
  | JArr _ | JObj _ => true
  end.

Definition hasField (k : string) (fields : list (string * JsValue)) : bool :=
  existsb (fun kv => String.eqb (fst kv) k) fields.

(** [o[k] = v]: an existing property keeps its place, a new one goes last. *)
Definition setField (k : string) (v : JsValue) (fields : list (string * JsValue))
  : list (string * JsValue) :=
  if hasField k fields
  then map (fun kv => if String.eqb (fst kv) k then (k, v) else kv) fields
  else fields ++ [(k, v)].

(** [delete o[k]] *)
Definition deleteField (k : string) (fields : list (string * JsValue))
  : list (string * JsValue) :=
  List.filter (fun kv => negb (String.eqb (fst kv) k)) fields.

(** The callback of [parsedMembers.map] (lines 358-365). *)
Definition migrateMember (today : string) (member : list (string * JsValue))
  : list (string * JsValue) :=
  let newMember := setField "attendance" (JObj []) member in
  let newMember :=
    if truthy (getField "status" member)
    then setField "attendance" (JObj [(today, getField "status" member)]) newMember
    else newMember in
  deleteField "status" newMember.

(** Lines 356-366: the migration runs when the first record has a
    [status] that is not [undefined]. *)
Definition migrateLegacy (today : string)
    (parsedMembers : list (list (string * JsValue)))
  : list (list (string * JsValue)) :=
  match parsedMembers with
  | first :: _ =>
      if negb (isUndefined (getField "status" first))
      then map (migrateMember today) parsedMembers
      else parsedMembers
  | [] => parsedMembers
  end.

Definition hasStringName (o : list (string * JsValue)) : bool :=
  String.eqb (typeof (getField "name" o)) "string".

Definition nameText (o : list (string * JsValue)) : string :=
  match getField "name" o with JStr s => s | _ => "" end.

(** The state initializer for a parsed stored array.  [None]: some record
    has a name that is not a string, so [a.name.localeCompare] is not
    callable; which such arrays make the comparator run on that record
    depends on the engine's sort, and they are left out of the model. *)
Definition loadMembers (localeCompare : string -> string -> Z) (today : string)
    (parsedMembers : list (list (string * JsValue)))
  : option (list (list (string * JsValue))) :=
  let migrated := migrateLegacy today parsedMembers in
  if forallb hasStringName migrated
  then Some (sortWith (fun a b => localeCompare (nameText a) (nameText b)) migrated)
  else None.

(** ** Selection, bulk message and row buttons (lines 478-553, 797-804) *)

(** The selected ids are a [Set<number>]. *)
Definition handleSelectionChange (memberId : Z) (prevSelected : gset Z) : gset Z :=
  if bool_decide (memberId ∈ prevSelected)
  then prevSelected ∖ {[memberId]}
  else prevSelected ∪ {[memberId]}.

(** The second state update of [handleDeleteMember] (lines 516-520). *)
Definition handleDeleteMemberSelection (confirmed : bool) (memberToDelete : Member)
    (prev : gset Z) : gset Z :=
  if confirmed then prev ∖ {[id memberToDelete]} else prev.

Definition handleSelectAllVisible (paginated : list Member)
    (selectedMemberIds : gset Z) : gset Z :=
  let visibleIds := map id paginated in
  let allVisibleSelected :=
    (0 <? length visibleIds)%nat
    && forallb (fun i => bool_decide (i ∈ selectedMemberIds)) visibleIds in
  if allVisibleSelected
  then selectedMemberIds ∖ list_to_set visibleIds
  else selectedMemberIds ∪ list_to_set visibleIds.

Definition handleClearSelection : gset Z := ∅.

(** [phone.replace(/-/g, '')] *)
Definition removeHyphens (s : string) : string :=
  string_of_list_ascii
    (List.filter (fun c => negb (isHyphen c)) (list_ascii_of_string s)).

(** [handleSendSms] (lines 543-553): the address assigned to
    [window.location.href], or [None] when nothing is opened. *)
Definition handleSendSms (selectedMemberIds : gset Z) (members : list Member)
  : option string :=
  if (size selectedMemberIds =? 0)%nat then None
  else
    let phoneNumbers :=
      map (fun m => removeHyphens (phone m))
          (List.filter (fun m => bool_decide (id m ∈ selectedMemberIds)) members) in
    if (0 <? length phoneNumbers)%nat
    then Some (String.append "sms:" (String.concat "," phoneNumbers))
    else None.

(** The third argument that the two buttons of a row pass to
    [handleAttendanceChange]: the marker when the member already has the
    button's status on the viewing date, the status otherwise. *)
Definition buttonStatus (button : AttendanceStatus) (member : Member)
    (viewingDate : string) : option AttendanceStatus :=
  if attendanceIs member viewingDate (statusName button) then None else Some button.

Definition clickAttendance (button : AttendanceStatus) (member : Member)
    (viewingDate : string) (prevMembers : list Member) : list Member :=
  handleAttendanceChange (id member) viewingDate
    (buttonStatus button member viewingDate) prevMembers.

(** ** The pagination bar (lines 279-311): the page each control asks for *)



(** [Array.from({ length: totalPages }, (_, i) => i + 1)] *)
Definition pageNumbers (totalPages_ : Z) : list Z :=
  map (fun i => Z.of_nat i + 1) (seq 0 (Z.to_nat totalPages_)).

(** ** Predicates used in the statements *)

(** A member whose attendance keys all match the date pattern. *)
Definition validDates (m : Member) : Prop :=
  forall date, is_Some (attendance m !! date) -> dateKeyRegex date = true.

Definition valid (members : list JsValue) : ValidationResult :=
  {| isValid := true; error := None; validatedMembers := Some members |}.

(** [a] may stand before [b] under the comparator. *)
Definition inOrder {A} (cmp : A -> A -> Z) (a b : A) : Prop := cmp a b <= 0.

(** A stored record of the legacy shape whose fields the validator would
    accept: numeric id, string name, known position, string phone, and a
    status that is falsy or one of the two statuses. *)
Definition legacyRecord (o : list (string * JsValue)) : Prop :=
  typeof (getField "id" o) = "number"
  /\ typeof (getField "name" o) = "string"
  /\ isPositionValue (getField "position" o) = true
  /\ typeof (getField "phone" o) = "string"
  /\ (truthy (getField "status" o) = true ->
      isStatusValue (getField "status" o) = true).

(** A roster in the order of the collation of its names. *)
Definition sortedByName (localeCompare : string -> string -> Z)
    (members : list Member) : Prop :=
  StronglySorted (inOrder (byName localeCompare)) members.

(** The membership condition of the filtered view, in the words of the
    specification. *)
Definition passesFilters (positionFilter statusFilter viewingDate : string)
    (member : Member) : Prop :=
  (positionFilter = ALL_FILTER \/ positionName (position member) = positionFilter)
  /\ (statusFilter = ALL_FILTER
      \/ statusName <$> attendance member !! viewingDate = Some statusFilter).

#[local] Instance passesFilters_dec positionFilter statusFilter viewingDate member :
  Decision (passesFilters positionFilter statusFilter viewingDate member).
Proof. unfold passesFilters. apply _. Defined.






(** ** A collation and a calendar for the worked instances *)

(** Ordinal comparison of the bytes, standing in for the Korean collation. *)
Definition ordinalCompare (a b : string) : Z :=
  match OrdersEx.String_as_OT.compare a b with
  | Lt => -1
  | Eq => 0
  | Gt => 1
  end.

Definition digitValue (c : ascii) : Z := Z.of_nat (nat_of_ascii c) - 48.

(** The month written in a date, 0-based: what [new Date(date).getMonth()]
    gives in a time zone east of Greenwich, such as Korea's. *)
Definition isoMonth (date : string) : option Z :=
  if dateKeyRegex date
  then match list_ascii_of_string date with
       | [_; _; _; _; _; m1; m2; _; _; _] =>
           let mm := 10 * digitValue m1 + digitValue m2 in
           if (1 <=? mm) && (mm <=? 12) then Some (mm - 1) else None
       | _ => None
       end
  else None.

(** ** Data for the worked instances *)

Definition kim : Member :=
  {| id := 1; name := "Kim"; position := Jipsa; phone := "010-1111-2222";
     attendance := {["2024-01-07" := Present]} |}.

Definition park : Member :=
  {| id := 4; name := "Park"; position := Gwonsa; phone := "010-5555-6666";
     attendance := {["2024-01-07" := Absent]} |}.

Definition exampleRoster : list Member := [kim; park].

Definition kimJson : JsValue :=
  JObj [("id", JNum 1); ("name", JStr "Kim"); ("position", JStr "집사");
        ("phone", JStr "010-1111-2222");
        ("attendance", JObj [("2024-01-07", JStr "출석")])].







(** Stored records: one of the current shape, one of the legacy shape. *)
Definition storedKim : list (string * JsValue) :=
  [("id", JNum 1); ("name", JStr "Kim"); ("position", JStr "집사");
   ("phone", JStr "010-1111-2222"); ("attendance", JObj [])].

Definition legacyLee : list (string * JsValue) :=
  [("id", JNum 2); ("name", JStr "Lee"); ("position", JStr "성도");
   ("phone", JStr "010-3333-4444"); ("status", JStr "출석")].

Definition legacyHan : list (string * JsValue) :=
  [("id", JNum 3); ("name", JStr "Han"); ("position", JStr "집사");
   ("phone", JStr "010-9999-0000"); ("status", JStr "")].


(** A file whose second element is an array. *)
Definition arrayElementFile : list JsValue := [kimJson; JArr []].




(** * Properties *)

(** ** Enumerations and their names *)

Lemma positionOfName_name (p : Position) : positionOfName (positionName p) = Some p.
Proof. destruct p; reflexivity. Qed.

Lemma statusOfName_name (s : AttendanceStatus) : statusOfName (statusName s) = Some s.
Proof. destruct s; reflexivity. Qed.



(** ** The validator *)

Lemma validateLoop_pass (data : list JsValue) :
  forall i validated,
    (forall j member, data !! j = Some member -> checkMember (i + j) member = None) ->
    validateLoop i data validated = valid (validated ++ data).
Proof.
  induction data as [|member rest IH]; intros i validated Hall; simpl.
  - now rewrite app_nil_r.
  - assert (H0 : checkMember i member = None).
    { specialize (Hall 0%nat member eq_refl). now rewrite Nat.add_0_r in Hall. }
    rewrite H0, IH.
    + now rewrite <- app_assoc.
    + intros j m Hj. replace (S i + j)%nat with (i + S j)%nat by lia.
      now apply Hall.
Qed.

Lemma validateLoop_first_failure (data : list JsValue) :
  forall i validated k member e,
    data !! k = Some member ->
    (forall j m, (j < k)%nat -> data !! j = Some m -> checkMember (i + j) m = None) ->
    checkMember (i + k) member = Some e ->
    validateLoop i data validated = invalid e.
Proof.
  induction data as [|x rest IH]; intros i validated k member e Hk Hbefore Hfail.
  - discriminate Hk.
  - destruct k as [|k]; simpl in *.
    + injection Hk as ->. rewrite Nat.add_0_r in Hfail. now rewrite Hfail.
    + assert (H0 : checkMember i x = None).
      { specialize (Hbefore 0%nat x ltac:(lia) eq_refl).
        now rewrite Nat.add_0_r in Hbefore. }
      rewrite H0. apply (IH (S i) _ k member e Hk).
      * intros j m Hlt Hj. replace (S i + j)%nat with (i + S j)%nat by lia.
        apply Hbefore; [lia | exact Hj].
      * now replace (S i + k)%nat with (i + S k)%nat by lia.
Qed.




Lemma asStatusEntry_json (date : string) (s : AttendanceStatus) :
  asStatusEntry (date, JStr (statusName s)) = Some (date, s).
Proof. unfold asStatusEntry. cbn [fst snd]. now rewrite statusOfName_name. Qed.





Lemma typeof_number (v : JsValue) : typeof v = "number" -> exists n, v = JNum n.
Proof. destruct v; simpl; intros H; try discriminate H. now eexists. Qed.

Lemma typeof_string (v : JsValue) : typeof v = "string" -> exists s, v = JStr s.
Proof. destruct v; simpl; intros H; try discriminate H. now eexists. Qed.

Lemma eqb_typeof (v : JsValue) (t : string) :
  negb (String.eqb (typeof v) t) = false -> typeof v = t.
Proof.
  intros H. apply negb_false_iff in H. now apply String.eqb_eq.
Qed.


(** ** Sorting *)

Section Sorting.

Context {A : Type} (cmp : A -> A -> Z).

Lemma insertSorted_perm (x : A) (l : list A) : insertSorted cmp x l ≡ₚ x :: l.
Proof.
  induction l as [|y rest IH]; simpl; [reflexivity|].
  destruct (0 <? cmp x y); [|reflexivity].
  rewrite IH. apply Permutation_swap.
Qed.

Lemma sortWith_perm (l : list A) : sortWith cmp l ≡ₚ l.
Proof.
  induction l as [|x rest IH]; simpl; [reflexivity|].
  change (foldr (insertSorted cmp) [] rest) with (sortWith cmp rest).
  now rewrite insertSorted_perm, IH.
Qed.

(** A consistent comparator: any two elements are comparable, and the
    order is transitive. *)
Hypothesis cmp_total : forall a b, 0 < cmp a b -> cmp b a <= 0.
Hypothesis cmp_trans : forall a b c, cmp a b <= 0 -> cmp b c <= 0 -> cmp a c <= 0.

Lemma insertSorted_sorted (x : A) (l : list A) :
  StronglySorted (inOrder cmp) l -> StronglySorted (inOrder cmp) (insertSorted cmp x l).
Proof.
  induction 1 as [|y rest Hs IH Hy]; simpl.
  - constructor; constructor.
  - destruct (0 <? cmp x y) eqn:Hxy.
    + apply Z.ltb_lt in Hxy. constructor; [exact IH|].
      rewrite insertSorted_perm. constructor; [|exact Hy].
      now apply cmp_total.
    + apply Z.ltb_ge in Hxy. constructor.
      * now constructor.
      * constructor; [exact Hxy|].
        eapply Forall_impl; [exact Hy|]. intros z Hz. now apply (cmp_trans x y z).
Qed.

Lemma sortWith_sorted (l : list A) : StronglySorted (inOrder cmp) (sortWith cmp l).
Proof.
  induction l as [|x rest IH]; simpl; [constructor|].
  now apply insertSorted_sorted.
Qed.

End Sorting.

(** ** The roster store *)










(** C10.  Editing keeps every member at its index and keeps every id and
    attendance map; a member with another id is returned as it was, the
    member with the given id takes the new name, position and phone, and
    nothing changes when no member has the id. *)
Theorem handleSaveMember_frame (uId : Z) (uName : string) (uPosition : Position)
    (uPhone : string) (prevMembers : list Member) :
  let r := handleSaveMember uId uName uPosition uPhone prevMembers in
  length r = length prevMembers
  /\ (forall i m, prevMembers !! i = Some m ->
        exists m', r !! i = Some m'
                   /\ id m' = id m
                   /\ attendance m' = attendance m
                   /\ (id m <> uId -> m' = m)
                   /\ (id m = uId ->
                       name m' = uName /\ position m' = uPosition
                       /\ phone m' = uPhone))
  /\ ((forall m, m ∈ prevMembers -> id m <> uId) -> r = prevMembers).
Proof.
  cbn zeta. unfold handleSaveMember. split; [apply length_map|]. split.
  - intros i m Hi. rewrite list_lookup_fmap, Hi. cbn.
    destruct (id m =? uId) eqn:E.
    + apply Z.eqb_eq in E. eexists. split; [reflexivity|].
      cbn. repeat split; auto. intros Hne. contradiction.
    + apply Z.eqb_neq in E. exists m. repeat split; auto; contradiction.
  - intros Hnone. induction prevMembers as [|m rest IH]; [reflexivity|].
    cbn [map]. rewrite IH.
    + destruct (id m =? uId) eqn:E; [|reflexivity].
      apply Z.eqb_eq in E. exfalso. apply (Hnone m); [left | exact E].
    + intros m' Hm'. apply Hnone. now right.
Qed.

(** *** Validated elements have the shape of [Member] *)

Lemma includes_In (xs : list string) (s : string) :
  includes xs s = true -> s ∈ xs.
Proof.
  unfold includes. intros H. apply existsb_exists in H as [x [Hin Hx]].
  apply String.eqb_eq in Hx. subst x. now apply list_elem_of_In.
Qed.

Lemma isPositionValue_inv (v : JsValue) :
  isPositionValue v = true -> exists p, v = JStr (positionName p).
Proof.
  destruct v; cbn [isPositionValue]; intros H; try discriminate H.
  apply includes_In in H. unfold POSITIONS in H.
  apply list_elem_of_fmap in H as [p [-> _]]. now exists p.
Qed.

Lemma isStatusValue_inv (v : JsValue) :
  isStatusValue v = true -> exists a, v = JStr (statusName a).
Proof.
  destruct v; cbn [isStatusValue]; intros H; try discriminate H.
  apply includes_In in H. unfold ATTENDANCE_STATUSES in H.
  apply list_elem_of_fmap in H as [a [-> _]]. now exists a.
Qed.

Lemma checkAttendance_typed (who : JsValue) (entries : list (string * JsValue)) :
  checkAttendance who entries = None ->
  exists typed, mapM asStatusEntry entries = Some typed.
Proof.
  induction entries as [|[date v] rest IH]; intros H.
  - now exists [].
  - cbn [checkAttendance] in H.
    destruct (dateKeyRegex date); cbn [negb orb] in H; [|discriminate H].
    destruct (isStatusValue v) eqn:Ev; cbn [negb] in H; [|discriminate H].
    apply isStatusValue_inv in Ev as [a ->].
    destruct (IH H) as [typed Ht].
    exists ((date, a) :: typed). cbn [mapM].
    now rewrite asStatusEntry_json, Ht.
Qed.

Lemma checkMember_typed (i : nat) (v : JsValue) :
  checkMember i v = None ->
  exists m, asMember v = Some m /\ getProp v "id" = JNum (id m).
Proof.
  unfold checkMember. intros H.
  destruct (isNonNullObject v); cbn [negb] in H; [|discriminate H].
  destruct (negb (String.eqb (typeof (getProp v "id")) "number")) eqn:Eid;
    [discriminate H|].
  destruct (negb (String.eqb (typeof (getProp v "name")) "string")) eqn:Ename;
    [discriminate H|].
  destruct (negb (String.eqb (typeof (getProp v "position")) "string"));
    cbn [orb] in H; [discriminate H|].
  destruct (isPositionValue (getProp v "position")) eqn:Epos;
    cbn [negb] in H; [|discriminate H].
  destruct (negb (String.eqb (typeof (getProp v "phone")) "string")) eqn:Ephone;
    [discriminate H|].
  destruct (isNonNullObject (getProp v "attendance"));
    cbn [negb] in H; [|discriminate H].
  apply eqb_typeof, typeof_number in Eid as [n Hn].
  apply eqb_typeof, typeof_string in Ename as [nm Hnm].
  apply eqb_typeof, typeof_string in Ephone as [ph Hph].
  apply isPositionValue_inv in Epos as [p Hp].
  apply checkAttendance_typed in H as [typed Ht].
  unfold asMember, asAttendance. rewrite Hn, Hnm, Hp, Hph, Ht.
  cbv iota beta. rewrite positionOfName_name.
  eexists. split; reflexivity.
Qed.

Lemma validateLoop_inv (data : list JsValue) :
  forall i validated out,
    validatedMembers (validateLoop i data validated) = Some out ->
    out = validated ++ data
    /\ isValid (validateLoop i data validated) = true
    /\ Forall (fun v => exists j, checkMember j v = None) data.
Proof.
  induction data as [|v rest IH]; intros i validated out H; simpl in *.
  - injection H as <-. now rewrite app_nil_r.
  - destruct (checkMember i v) eqn:E; [discriminate H|].
    destruct (IH _ _ _ H) as [-> [Hvalid Hall]].
    rewrite <- app_assoc. repeat split; auto.
    constructor; [now exists i | exact Hall].
Qed.

Lemma validated_inv (parsedData : JsValue) (validated : list JsValue) :
  validatedMembers (validateImportedData parsedData) = Some validated ->
  isValid (validateImportedData parsedData) = true
  /\ Forall (fun v => exists j, checkMember j v = None) validated.
Proof.
  destruct parsedData; simpl; intros H; try discriminate H.
  apply validateLoop_inv in H as [-> [Hvalid Hall]]. now split.
Qed.

Lemma validated_typed (validated : list JsValue) :
  Forall (fun v => exists j, checkMember j v = None) validated ->
  exists typed,
    mapM asMember validated = Some typed
    /\ map (fun v => getProp v "id") validated = map JNum (map id typed).
Proof.
  induction 1 as [|v rest [j Hv] _ [typed [Ht Hids]]].
  - now exists [].
  - apply checkMember_typed in Hv as [m [Hm Hid]].
    exists (m :: typed). cbn [mapM map]. rewrite Hm, Ht, Hid, Hids.
    now split.
Qed.

(** What the import makes of an accepted file: the validated elements,
    typed and sorted; a declined import leaves the roster. *)
Lemma handleImportData_accepted (localeCompare : string -> string -> Z)
    (parsedData : JsValue) (members : list Member) (validated : list JsValue) :
  validatedMembers (validateImportedData parsedData) = Some validated ->
  exists typed,
    mapM asMember validated = Some typed
    /\ map (fun v => getProp v "id") validated = map JNum (map id typed)
    /\ handleImportData localeCompare parsedData true members
       = sortMembers localeCompare typed
    /\ handleImportData localeCompare parsedData false members = members.
Proof.
  intros Hv. destruct (validated_inv _ _ Hv) as [Hvalid Hall].
  destruct (validated_typed _ Hall) as [typed [Ht Hids]].
  exists typed. unfold handleImportData. rewrite Hv, Hvalid, Ht.
  repeat split; auto.
Qed.



(** ** Derived views *)

Lemma positionMatch_all (m : Member) : positionMatch ALL_FILTER m = true.
Proof. reflexivity. Qed.

Lemma filter_all_true {A} (f : A -> bool) (l : list A) :
  (forall x, f x = true) -> List.filter f l = l.
Proof.
  intros Hf. induction l as [|x rest IH]; simpl; [reflexivity|].
  now rewrite Hf, IH.
Qed.


Lemma attendanceIs_cases (m : Member) (D : string) :
  (attendance m !! D = Some Present
   /\ attendanceIs m D (statusName Present) = true
   /\ attendanceIs m D (statusName Absent) = false)
  \/ (attendance m !! D = Some Absent
      /\ attendanceIs m D (statusName Present) = false
      /\ attendanceIs m D (statusName Absent) = true)
  \/ (attendance m !! D = None
      /\ attendanceIs m D (statusName Present) = false
      /\ attendanceIs m D (statusName Absent) = false).
Proof.
  unfold attendanceIs. destruct (attendance m !! D) as [[|]|]; cbn; auto.
Qed.

Lemma counts_step (D : string) (members : list Member) :
  let present_ := length (List.filter
                            (fun m => attendanceIs m D (statusName Present)) members) in
  let absent_ := length (List.filter
                           (fun m => attendanceIs m D (statusName Absent)) members) in
  (present_ + absent_ <= length members)%nat
  /\ ((present_ + absent_ = length members)%nat
      <-> Forall (fun m => is_Some (attendance m !! D)) members).
Proof.
  induction members as [|m rest [IHle IHeq]]; cbn zeta in *.
  - cbn. split; [lia|]. split; [constructor | reflexivity].
  - cbn [List.filter].
    destruct (attendanceIs_cases m D) as [(E & -> & ->)|[(E & -> & ->)|(E & -> & ->)]];
      cbn [length]; (split; [lia|]); rewrite Forall_cons, <- IHeq, E.
    + split; [intros H; split; [now eexists | lia] | intros [_ H]; lia].
    + split; [intros H; split; [now eexists | lia] | intros [_ H]; lia].
    + split; [intros H; lia | intros [[s Hs] _]; discriminate Hs].
Qed.

(** C5.  With the position filter "all", present + absent never exceeds
    the total, and equals it exactly when every member of the roster has
    an attendance entry for the viewing date. *)
Theorem attendanceCounts_all (members : list Member) (viewingDate : string) :
  let c := attendanceCounts members ALL_FILTER viewingDate in
  total c = length members
  /\ (present c + absent c <= total c)%nat
  /\ ((present c + absent c = total c)%nat
      <-> forall m, m ∈ members -> is_Some (attendance m !! viewingDate)).
Proof.
  cbn zeta. unfold attendanceCounts.
  rewrite (filter_all_true (positionMatch ALL_FILTER) members positionMatch_all).
  cbn [total present absent].
  destruct (counts_step viewingDate members) as [Hle Heq].
  split; [reflexivity|]. split; [exact Hle|].
  rewrite Heq. apply Forall_forall.
Qed.

Lemma positionMatch_iff (positionFilter : string) (m : Member) :
  positionMatch positionFilter m = true
  <-> positionFilter = ALL_FILTER \/ positionName (position m) = positionFilter.
Proof.
  unfold positionMatch. rewrite orb_true_iff, !String.eqb_eq. reflexivity.
Qed.

Lemma statusMatch_iff (statusFilter viewingDate : string) (m : Member) :
  statusMatch statusFilter viewingDate m = true
  <-> statusFilter = ALL_FILTER
      \/ statusName <$> attendance m !! viewingDate = Some statusFilter.
Proof.
  unfold statusMatch. rewrite orb_true_iff, String.eqb_eq.
  destruct (attendance m !! viewingDate) as [s|]; cbn.
  - rewrite String.eqb_eq. split; (intros [H|H]; [now left | right]);
      congruence.
  - split; (intros [H|H]; [now left | discriminate H]).
Qed.

Lemma filter_bool_prop {A} (f : A -> bool) (P : A -> Prop)
    `{!forall x, Decision (P x)} (l : list A) :
  (forall x, f x = true <-> P x) -> List.filter f l = filter P l.
Proof.
  intros Hf. induction l as [|x rest IH]; [reflexivity|].
  cbn [List.filter]. rewrite filter_cons, IH.
  destruct (decide (P x)) as [HP|HP].
  - apply Hf in HP. now rewrite HP.
  - destruct (f x) eqn:E; [|reflexivity]. apply Hf in E. contradiction.
Qed.

(** C6.  The filtered view keeps, in roster order, exactly the members
    that match the position filter ("all" or their own position) and the
    status filter ("all" or their status on the viewing date); a member
    with no entry for the viewing date matches no status other than
    "all". *)
Theorem filteredMembers_spec (members : list Member)
    (positionFilter statusFilter viewingDate : string) :
  filteredMembers members positionFilter statusFilter viewingDate
  = filter (passesFilters positionFilter statusFilter viewingDate) members
  /\ (forall m,
         m ∈ filteredMembers members positionFilter statusFilter viewingDate
         <-> m ∈ members
             /\ passesFilters positionFilter statusFilter viewingDate m)
  /\ (forall m,
         attendance m !! viewingDate = None -> statusFilter <> ALL_FILTER ->
         m ∉ filteredMembers members positionFilter statusFilter viewingDate).
Proof.
  assert (Heq : filteredMembers members positionFilter statusFilter viewingDate
                = filter (passesFilters positionFilter statusFilter viewingDate)
                    members).
  { unfold filteredMembers. apply filter_bool_prop. intros m.
    rewrite andb_true_iff, positionMatch_iff, statusMatch_iff. reflexivity. }
  split; [exact Heq|]. rewrite Heq. split.
  - intros m. rewrite list_elem_of_filter. tauto.
  - intros m Hnone Hsf Hin. apply list_elem_of_filter in Hin as [[_ [H|H]] _].
    + contradiction.
    + rewrite Hnone in H. discriminate H.
Qed.

(** *** Pagination *)

Lemma slice_in_range {A} (start len_ : Z) (l : list A) :
  0 <= start -> 0 <= len_ ->
  slice start (start + len_) l
  = take (Z.to_nat len_) (drop (Z.to_nat start) l).
Proof.
  intros Hs Hl. unfold slice, relativeIndex.
  destruct (start <? 0) eqn:E1; [apply Z.ltb_lt in E1; lia|].
  destruct (start + len_ <? 0) eqn:E2; [apply Z.ltb_lt in E2; lia|].
  set (n := Z.of_nat (length l)).
  destruct (Z_lt_le_dec start n) as [Hin|Hout].
  - rewrite (Z.min_l start n) by lia.
    destruct (Z_le_gt_dec (start + len_) n) as [Hfit|Hover].
    + rewrite Z.min_l by lia. f_equal. lia.
    + rewrite Z.min_r by lia.
      rewrite !take_ge; [reflexivity| |]; rewrite length_drop; subst n; lia.
  - rewrite (Z.min_r start n) by lia.
    rewrite !drop_ge by (subst n; lia). now rewrite !take_nil.
Qed.

Lemma ceilDiv_lt (n d page : Z) :
  0 < d -> 0 <= n -> ceilDiv n d < page -> n <= (page - 1) * d.
Proof.
  unfold ceilDiv. intros Hd Hn Hlt.
  assert (Hq : (n + d - 1) / d <= page - 1) by lia.
  pose proof (Z.mul_div_le (n + d - 1) d Hd).
  pose proof (Z.mod_pos_bound (n + d - 1) d Hd).
  pose proof (Z.div_mod (n + d - 1) d ltac:(lia)).
  nia.
Qed.

(** C7.  For a positive page size and a page number from 1, a page is the
    slice [(page-1)*size, page*size) of the filtered sequence, holds at
    most [size] elements, and is empty for every page beyond
    ceil(length / size). *)
Theorem paginate_spec {A} (pageSize : Z) (filtered : list A) (currentPage : Z) :
  0 < pageSize -> 1 <= currentPage ->
  paginate pageSize filtered currentPage
  = take (Z.to_nat pageSize)
         (drop (Z.to_nat ((currentPage - 1) * pageSize)) filtered)
  /\ Z.of_nat (length (paginate pageSize filtered currentPage)) <= pageSize
  /\ (totalPagesFor pageSize filtered < currentPage ->
      paginate pageSize filtered currentPage = []).
Proof.
  intros Hsize Hpage.
  assert (Heq : paginate pageSize filtered currentPage
                = take (Z.to_nat pageSize)
                    (drop (Z.to_nat ((currentPage - 1) * pageSize)) filtered)).
  { unfold paginate. cbn zeta. apply slice_in_range; nia. }
  split; [exact Heq|]. rewrite Heq. split.
  - rewrite length_take. lia.
  - intros Hbeyond. unfold totalPagesFor in Hbeyond.
    apply ceilDiv_lt in Hbeyond; [|lia|lia].
    rewrite drop_ge by lia. apply take_nil.
Qed.

Lemma paginatedMembers_unfold (filtered : list Member) (currentPage : Z) :
  paginatedMembers filtered currentPage
  = paginate 15 filtered currentPage
  /\ totalPages filtered = totalPagesFor 15 filtered.
Proof. split; reflexivity. Qed.

(** ** Per-member statistics *)







Lemma filter_length_bound {A} (f : A -> bool) (l : list A) :
  (length (List.filter f l) <= length l)%nat.
Proof.
  induction l as [|x rest IH]; simpl; [lia|]. destruct (f x); simpl; lia.
Qed.


(** ** Loader and legacy migration *)

Lemma getField_cons (k : string) (kv : string * JsValue)
    (o : list (string * JsValue)) :
  getField k (kv :: o) = if String.eqb (fst kv) k then snd kv else getField k o.
Proof. unfold getField. cbn [List.find]. now destruct (String.eqb (fst kv) k). Qed.

Lemma getField_app_miss (k : string) (o o' : list (string * JsValue)) :
  hasField k o = false -> getField k (o ++ o') = getField k o'.
Proof.
  induction o as [|kv rest IH]; [reflexivity|].
  cbn [hasField existsb app]. intros H. apply orb_false_iff in H as [H1 H2].
  rewrite getField_cons, H1. now apply IH.
Qed.

Lemma getField_app_other (k k' : string) (v : JsValue)
    (o : list (string * JsValue)) :
  k <> k' -> getField k' (o ++ [(k, v)]) = getField k' o.
Proof.
  intros Hne. induction o as [|kv rest IH]; cbn [app].
  - rewrite getField_cons. cbn [fst].
    now destruct (String.eqb_spec k k').
  - rewrite !getField_cons. now rewrite IH.
Qed.

Lemma getField_replace (k k' : string) (v : JsValue)
    (o : list (string * JsValue)) :
  getField k' (map (fun kv => if String.eqb (fst kv) k then (k, v) else kv) o)
  = if String.eqb k k'
    then (if hasField k o then v else JUndefined)
    else getField k' o.
Proof.
  induction o as [|[k0 v0] rest IH]; cbn [map hasField existsb fst].
  - now destruct (String.eqb k k').
  - rewrite !getField_cons, IH. cbn [fst snd].
    destruct (String.eqb_spec k0 k) as [->|Hk0]; cbn [fst snd orb].
    + destruct (String.eqb_spec k k'); reflexivity.
    + destruct (String.eqb_spec k k') as [<-|Hkk'].
      * destruct (String.eqb_spec k0 k); [contradiction | reflexivity].
      * reflexivity.
Qed.

Lemma getField_setField_eq (k : string) (v : JsValue)
    (o : list (string * JsValue)) :
  getField k (setField k v o) = v.
Proof.
  unfold setField. destruct (hasField k o) eqn:E.
  - rewrite getField_replace, String.eqb_refl. fold (hasField k o).
    now rewrite E.
  - rewrite getField_app_miss by exact E.
    rewrite getField_cons. cbn [fst snd]. now rewrite String.eqb_refl.
Qed.

Lemma getField_setField_ne (k k' : string) (v : JsValue)
    (o : list (string * JsValue)) :
  k <> k' -> getField k' (setField k v o) = getField k' o.
Proof.
  intros Hne. unfold setField. destruct (hasField k o).
  - rewrite getField_replace. now destruct (String.eqb_spec k k').
  - now apply getField_app_other.
Qed.

Lemma getField_deleteField (k k' : string) (o : list (string * JsValue)) :
  getField k' (deleteField k o)
  = if String.eqb k k' then JUndefined else getField k' o.
Proof.
  induction o as [|[k0 v0] rest IH]; cbn [deleteField List.filter fst].
  - now destruct (String.eqb k k').
  - fold (deleteField k rest). rewrite getField_cons. cbn [fst snd].
    destruct (String.eqb_spec k0 k) as [->|Hk0]; cbn [negb].
    + rewrite IH. now destruct (String.eqb_spec k k').
    + rewrite getField_cons, IH. cbn [fst snd].
      destruct (String.eqb_spec k k') as [<-|Hkk'].
      * now destruct (String.eqb_spec k0 k).
      * reflexivity.
Qed.

(** The record that the migration makes of [member]. *)
Lemma migrateMember_spec (today : string) (member : list (string * JsValue)) :
  getField "status" (migrateMember today member) = JUndefined
  /\ getField "attendance" (migrateMember today member)
     = (if truthy (getField "status" member)
        then JObj [(today, getField "status" member)]
        else JObj [])
  /\ (forall k, k <> "status" -> k <> "attendance" ->
                getField k (migrateMember today member) = getField k member).
Proof.
  unfold migrateMember. repeat split.
  - now rewrite getField_deleteField.
  - rewrite getField_deleteField. cbn [String.eqb Ascii.eqb Bool.eqb].
    destruct (truthy (getField "status" member));
      now rewrite getField_setField_eq.
  - intros k Hs Ha. rewrite getField_deleteField.
    destruct (String.eqb_spec "status" k) as [<-|_]; [contradiction|].
    destruct (truthy (getField "status" member));
      rewrite !getField_setField_ne; auto.
Qed.

Lemma loadMembers_perm (localeCompare : string -> string -> Z) (today : string)
    (parsedMembers : list (list (string * JsValue))) :
  forallb hasStringName (migrateLegacy today parsedMembers) = true ->
  exists loaded,
    loadMembers localeCompare today parsedMembers = Some loaded
    /\ loaded ≡ₚ migrateLegacy today parsedMembers.
Proof.
  intros Hnames. unfold loadMembers. rewrite Hnames.
  eexists. split; [reflexivity | apply sortWith_perm].
Qed.

(** C3 (amended).  The migration is decided by the first stored record.
    When its [status] is not undefined, every record is rebuilt at its
    index without a [status] property and with attendance
    [{today: status}] if its own status is truthy and [{}] if not, all
    other properties kept.  When the first record has no [status], all
    records are kept as stored.  The loaded roster is a reordering of
    these records. *)
Theorem migrateLegacy_spec (today : string) (first : list (string * JsValue))
    (rest : list (list (string * JsValue))) :
  let parsedMembers := first :: rest in
  (getField "status" first <> JUndefined ->
   length (migrateLegacy today parsedMembers) = length parsedMembers
   /\ forall i member,
       parsedMembers !! i = Some member ->
       exists migrated,
         migrateLegacy today parsedMembers !! i = Some migrated
         /\ getField "status" migrated = JUndefined
         /\ getField "attendance" migrated
            = (if truthy (getField "status" member)
               then JObj [(today, getField "status" member)]
               else JObj [])
         /\ (forall k, k <> "status" -> k <> "attendance" ->
                       getField k migrated = getField k member))
  /\ (getField "status" first = JUndefined ->
      migrateLegacy today parsedMembers = parsedMembers)
  /\ (forall localeCompare,
         forallb hasStringName (migrateLegacy today parsedMembers) = true ->
         exists loaded,
           loadMembers localeCompare today parsedMembers = Some loaded
           /\ loaded ≡ₚ migrateLegacy today parsedMembers).
Proof.
  cbn zeta. split; [|split].
  - intros Hstatus. unfold migrateLegacy.
    destruct (getField "status" first) eqn:E; try contradiction; cbn [isUndefined negb].
    all: split; [apply length_map|].
    all: intros i member Hi; rewrite list_lookup_fmap, Hi; cbn;
      eexists; split; [reflexivity | apply migrateMember_spec].
  - intros Hstatus. unfold migrateLegacy. now rewrite Hstatus.
  - intros localeCompare. apply loadMembers_perm.
Qed.

(** * Further properties *)

(** ** The validator *)

Lemma validateLoop_cases (data : list JsValue) :
  forall i validated,
    (exists e, validateLoop i data validated = invalid e)
    \/ validateLoop i data validated = valid (validated ++ data).
Proof.
  induction data as [|v rest IH]; intros i validated; simpl.
  - right. now rewrite app_nil_r.
  - destruct (checkMember i v) as [e|]; [left; now exists e|].
    destruct (IH (S i) (validated ++ [v])) as [He|Hv]; [now left|].
    right. now rewrite Hv, <- app_assoc.
Qed.

(** X1.  The three fields of a validation result agree: the result is
    valid exactly when it has no error and exactly when it carries
    members, and the members it carries are the elements of the input
    array, all of them, unchanged and in order. *)
Theorem validate_result_coherent (data : JsValue) :
  let r := validateImportedData data in
  (isValid r = true <-> error r = None)
  /\ (isValid r = true <-> is_Some (validatedMembers r))
  /\ (forall out, validatedMembers r = Some out -> data = JArr out).
Proof.
  cbn zeta.
  assert (Hbad : forall e,
             (isValid (invalid e) = true <-> error (invalid e) = None)
             /\ (isValid (invalid e) = true
                 <-> is_Some (validatedMembers (invalid e)))
             /\ (forall out, validatedMembers (invalid e) = Some out ->
                             data = JArr out)).
  { intros e. cbn. repeat split; try discriminate.
    intros [x Hx]. discriminate Hx. }
  destruct data as [| | | | |items|]; try apply Hbad.
  unfold validateImportedData.
  destruct (validateLoop_cases items 0 []) as [[e Hr]|Hr]; rewrite Hr; [apply Hbad|].
  cbn. split; [tauto|]. split.
  - split; [now eexists | reflexivity].
  - intros out Hout. now injection Hout as <-.
Qed.

Lemma checkAttendance_error (who : JsValue) (entries : list (string * JsValue))
    (e : ValidationError) :
  checkAttendance who entries = Some e ->
  exists date value, e = InvalidAttendanceEntry who date value.
Proof.
  induction entries as [|[date value] rest IH]; [discriminate|].
  cbn [checkAttendance].
  destruct (negb (dateKeyRegex date) || negb (isStatusValue value)).
  - intros H. injection H as <-. now exists date, value.
  - exact IH.
Qed.

Lemma checkMember_error_kind (i : nat) (v : JsValue) (e : ValidationError) :
  checkMember i v = Some e -> e <> EmptyInput /\ e <> NotAnArray.
Proof.
  unfold checkMember.
  repeat match goal with
         | |- context [if ?c then _ else _] => destruct c
         end;
    try (intros H; injection H as <-; split; discriminate).
  intros H. apply checkAttendance_error in H as [d [x ->]]. split; discriminate.
Qed.

Lemma validateLoop_failure (data : list JsValue) :
  forall i validated e,
    error (validateLoop i data validated) = Some e ->
    exists k member,
      data !! k = Some member
      /\ (forall j m, (j < k)%nat -> data !! j = Some m ->
                      checkMember (i + j) m = None)
      /\ checkMember (i + k) member = Some e.
Proof.
  induction data as [|v rest IH]; intros i validated e H; simpl in H.
  - discriminate H.
  - destruct (checkMember i v) as [e'|] eqn:E.
    + cbn in H. injection H as ->. exists 0%nat, v.
      split; [reflexivity|]. split; [intros j m Hj; lia|].
      now rewrite Nat.add_0_r.
    + apply IH in H as [k [member [Hk [Hbefore Hfail]]]].
      exists (S k), member. split; [exact Hk|]. split.
      * intros [|j] m Hj Hm.
        -- injection Hm as <-. now rewrite Nat.add_0_r.
        -- replace (i + S j)%nat with (S i + j)%nat by lia.
           apply Hbefore; [lia | exact Hm].
      * now replace (i + S k)%nat with (S i + k)%nat by lia.
Qed.

(** X2.  The two errors about the input as a whole: "no data" is
    reported exactly for [undefined] and [null], and "not an array"
    exactly for the other values that are not arrays (objects, numbers,
    strings, booleans); an array never gets either of them. *)
Theorem validate_top_level_errors (data : JsValue) :
  (error (validateImportedData data) = Some EmptyInput
   <-> data = JUndefined \/ data = JNull)
  /\ (error (validateImportedData data) = Some NotAnArray
      <-> match data with
          | JBool _ | JNum _ | JStr _ | JObj _ => True
          | JUndefined | JNull | JArr _ => False
          end).
Proof.
  assert (Harr : forall items e,
             e = EmptyInput \/ e = NotAnArray ->
             error (validateLoop 0 items []) <> Some e).
  { intros items e He H.
    apply validateLoop_failure in H as [k [m [_ [_ H]]]].
    apply checkMember_error_kind in H as [H1 H2]. destruct He; contradiction. }
  destruct data as [| | | | |items|]; cbn [validateImportedData invalid error].
  6: { split; split; intros H; try contradiction.
       - exfalso. revert H. apply Harr. now left.
       - destruct H; discriminate.
       - exfalso. revert H. apply Harr. now right. }
  all: split; split; intros H; auto; try discriminate H; try contradiction.
  all: destruct H; discriminate.
Qed.

(** X3.  Fail-fast: validating an array reports the error [e] exactly
    when some element fails its checks with [e] and every element before
    it passes; later elements are never consulted. *)
Theorem validate_fail_fast (items : list JsValue) (e : ValidationError) :
  error (validateImportedData (JArr items)) = Some e
  <-> exists i member,
        items !! i = Some member
        /\ (forall j m, (j < i)%nat -> items !! j = Some m ->
                        checkMember j m = None)
        /\ checkMember i member = Some e.
Proof.
  unfold validateImportedData. split.
  - intros H. apply validateLoop_failure in H. exact H.
  - intros [i [member [Hi [Hbefore Hfail]]]].
    now rewrite (validateLoop_first_failure items 0 [] i member e).
Qed.

Lemma asStatusEntry_key (kv : string * JsValue) (typed : string * AttendanceStatus) :
  asStatusEntry kv = Some typed -> fst typed = fst kv.
Proof.
  unfold asStatusEntry. destruct (snd kv); try discriminate.
  destruct (statusOfName s); [|discriminate].
  intros H. now injection H as <-.
Qed.

Lemma mapM_asStatusEntry_keys (entries : list (string * JsValue))
    (typed : list (string * AttendanceStatus)) :
  mapM asStatusEntry entries = Some typed -> map fst typed = map fst entries.
Proof.
  intros H. apply mapM_Some in H.
  induction H as [|kv t rest typed' Hkv _ IH]; [reflexivity|].
  cbn [map]. now rewrite IH, (asStatusEntry_key kv t Hkv).
Qed.

Lemma checkAttendance_keys (who : JsValue) (entries : list (string * JsValue)) :
  checkAttendance who entries = None ->
  Forall (fun date => dateKeyRegex date = true) (map fst entries).
Proof.
  induction entries as [|[date v] rest IH]; intros H; [constructor|].
  cbn [checkAttendance] in H.
  destruct (dateKeyRegex date) eqn:Ed; cbn [negb orb] in H; [|discriminate H].
  destruct (isStatusValue v); cbn [negb] in H; [|discriminate H].
  constructor; [exact Ed | now apply IH].
Qed.

Lemma checkMember_validDates (i : nat) (v : JsValue) (m : Member) :
  checkMember i v = None -> asMember v = Some m -> validDates m.
Proof.
  intros Hcheck Hm.
  assert (Hkeys : Forall (fun date => dateKeyRegex date = true)
                    (map fst (ownEntries (getProp v "attendance")))).
  { unfold checkMember in Hcheck.
    repeat match type of Hcheck with
           | context [if ?c then _ else _] => destruct c; try discriminate Hcheck
           end.
    eapply checkAttendance_keys. exact Hcheck. }
  unfold asMember in Hm.
  destruct (getProp v "id"); try discriminate Hm.
  destruct (getProp v "name"); try discriminate Hm.
  destruct (getProp v "position"); try discriminate Hm.
  destruct (getProp v "phone"); try discriminate Hm.
  destruct (positionOfName _); try discriminate Hm.
  unfold asAttendance in Hm.
  destruct (mapM asStatusEntry _) as [typed|] eqn:Et; [|discriminate Hm].
  injection Hm as <-. intros date [a Ha]. cbn [attendance] in Ha.
  apply elem_of_list_to_map_2 in Ha.
  apply mapM_asStatusEntry_keys in Et. rewrite <- Et in Hkeys.
  rewrite Forall_forall in Hkeys. apply Hkeys.
  apply list_elem_of_fmap. now exists (date, a).
Qed.

(** X4.  What an accepted file guarantees: every validated element reads
    as a member of the [Member] interface (numeric id, known position,
    statuses of the enumeration), and every attendance key of every such
    member matches the date pattern. *)
Theorem validated_members_wellformed (data : JsValue) (validated : list JsValue) :
  validatedMembers (validateImportedData data) = Some validated ->
  exists typed,
    mapM asMember validated = Some typed
    /\ length typed = length validated
    /\ Forall validDates typed.
Proof.
  intros Hv. destruct (validated_inv _ _ Hv) as [_ Hall]. clear Hv.
  induction Hall as [|v rest [j Hj] _ [typed [Ht [Hlen Hvd]]]].
  - exists []. repeat split. constructor.
  - destruct (checkMember_typed j v Hj) as [m [Hm _]].
    exists (m :: typed). cbn [mapM]. rewrite Hm, Ht. cbn.
    repeat split; [now rewrite Hlen|].
    constructor; [now apply (checkMember_validDates j v) | exact Hvd].
Qed.

(** X5.  An array passes the object tests ([typeof [] === 'object']): an
    element that is itself an array is reported as lacking a numeric id,
    not as a non-object. *)
Theorem validate_array_element (items : list JsValue) (i : nat)
    (inner : list JsValue) :
  items !! i = Some (JArr inner) ->
  (forall j m, (j < i)%nat -> items !! j = Some m -> checkMember j m = None) ->
  error (validateImportedData (JArr items)) = Some (MissingId (i + 1)).
Proof.
  intros Hi Hbefore. unfold validateImportedData.
  now rewrite (validateLoop_first_failure items 0 [] i (JArr inner)
                 (MissingId (i + 1))).
Qed.

(** ** The roster store *)

Lemma member_eta (m : Member) :
  {| id := id m; name := name m; position := position m; phone := phone m;
     attendance := attendance m |} = m.
Proof. now destruct m. Qed.

(** The attendance map that a change leaves for a member of the id. *)
Definition changedAttendance (date : string) (newStatus : option AttendanceStatus)
    (att : gmap string AttendanceStatus) : gmap string AttendanceStatus :=
  match newStatus with
  | None => delete date att
  | Some s => <[date := s]> att
  end.

Lemma handleAttendanceChange_lookup (memberId : Z) (date : string)
    (newStatus : option AttendanceStatus) (prevMembers : list Member)
    (i : nat) (m : Member) :
  prevMembers !! i = Some m ->
  handleAttendanceChange memberId date newStatus prevMembers !! i
  = Some (if id m =? memberId
          then {| id := id m; name := name m; position := position m;
                  phone := phone m;
                  attendance := changedAttendance date newStatus (attendance m) |}
          else m).
Proof.
  intros Hi. unfold handleAttendanceChange.
  rewrite list_lookup_fmap, Hi. cbn. now destruct (id m =? memberId), newStatus.
Qed.

(** X6.  Setting or clearing the attendance of an id on a date keeps
    every member at its index with its id, name, position and phone; a
    member of the id then reads the new status on that date (none after
    clearing) and keeps all its other dates; members of other ids are
    returned as they were. *)
Theorem handleAttendanceChange_effect (memberId : Z) (date : string)
    (newStatus : option AttendanceStatus) (prevMembers : list Member) :
  let r := handleAttendanceChange memberId date newStatus prevMembers in
  length r = length prevMembers
  /\ forall i m,
      prevMembers !! i = Some m ->
      exists m',
        r !! i = Some m'
        /\ id m' = id m /\ name m' = name m
        /\ position m' = position m /\ phone m' = phone m
        /\ (id m <> memberId -> m' = m)
        /\ (id m = memberId ->
            attendance m' !! date = newStatus
            /\ forall other, other <> date ->
                             attendance m' !! other = attendance m !! other).
Proof.
  cbn zeta. split; [unfold handleAttendanceChange; apply length_map|].
  intros i m Hi.
  rewrite (handleAttendanceChange_lookup _ _ _ _ i m Hi).
  destruct (id m =? memberId) eqn:E.
  - apply Z.eqb_eq in E. eexists. split; [reflexivity|].
    cbn [id name position phone attendance]. repeat split; auto.
    + intros Hne. contradiction.
    + destruct newStatus; cbn; [apply lookup_insert_eq | apply lookup_delete_eq].
    + intros other Hother.
      destruct newStatus; cbn;
        [now apply lookup_insert_ne | now apply lookup_delete_ne].
  - apply Z.eqb_neq in E. exists m. repeat split; auto; contradiction.
Qed.

(** X7.  Clearing is a no-op where there is nothing to clear: when no
    member of the id has an entry for the date (in particular when no
    member has the id), the roster is returned unchanged. *)
Theorem handleAttendanceChange_unset_noop (memberId : Z) (date : string)
    (prevMembers : list Member) :
  (forall m, m ∈ prevMembers -> id m = memberId ->
             attendance m !! date = None) ->
  handleAttendanceChange memberId date None prevMembers = prevMembers.
Proof.
  intros Hnone. unfold handleAttendanceChange.
  induction prevMembers as [|m rest IH]; [reflexivity|].
  cbn [map]. rewrite IH.
  - destruct (id m =? memberId) eqn:E; [|reflexivity].
    apply Z.eqb_eq in E. rewrite delete_id.
    + now rewrite member_eta.
    + apply Hnone; [left | exact E].
  - intros m' Hm'. apply Hnone. now right.
Qed.

(** X8.  Two changes for the same id and date compose to the later one:
    the earlier change leaves no trace. *)
Theorem handleAttendanceChange_last_wins (memberId : Z) (date : string)
    (first second : option AttendanceStatus) (prevMembers : list Member) :
  handleAttendanceChange memberId date second
    (handleAttendanceChange memberId date first prevMembers)
  = handleAttendanceChange memberId date second prevMembers.
Proof.
  unfold handleAttendanceChange. rewrite map_map. apply map_ext. intros m.
  destruct (id m =? memberId) eqn:E; cbn [id attendance name position phone].
  - rewrite E. f_equal.
    destruct first, second;
      [apply insert_insert_eq | apply delete_insert_eq
       | apply insert_delete_eq | apply delete_delete_eq].
  - now rewrite E.
Qed.

(** X9.  The two buttons of a row: a click on the button of status [b]
    leaves the member without an entry for the viewing date when it had
    [b] there, and with [b] in every other case (so it overwrites the
    opposite status). *)
Theorem clickAttendance_toggle (button : AttendanceStatus) (member : Member)
    (viewingDate : string) (prevMembers : list Member) (i : nat) :
  prevMembers !! i = Some member ->
  exists member',
    clickAttendance button member viewingDate prevMembers !! i = Some member'
    /\ id member' = id member
    /\ (attendance member !! viewingDate = Some button ->
        attendance member' !! viewingDate = None)
    /\ (attendance member !! viewingDate <> Some button ->
        attendance member' !! viewingDate = Some button).
Proof.
  intros Hi. unfold clickAttendance.
  rewrite (handleAttendanceChange_lookup _ _ _ _ i member Hi).
  rewrite Z.eqb_refl. eexists. split; [reflexivity|].
  cbn [id attendance]. split; [reflexivity|].
  unfold buttonStatus, attendanceIs.
  destruct (attendance member !! viewingDate) as [s|] eqn:E.
  - destruct s, button; cbn; rewrite ?lookup_insert_eq, ?lookup_delete_eq;
      split; congruence.
  - cbn. rewrite lookup_insert_eq. split; congruence.
Qed.

(** X10.  A confirmed delete leaves no member with the id, keeps every
    member of another id, keeps their order, and drops the id from the
    selection; a declined delete changes neither roster nor selection. *)
Theorem handleDeleteMember_effect (memberToDelete : Member)
    (prevMembers : list Member) (selected : gset Z) :
  let r := handleDeleteMember true memberToDelete prevMembers in
  (forall m, m ∈ r <-> m ∈ prevMembers /\ id m <> id memberToDelete)
  /\ (r `sublist_of` prevMembers)
  /\ (id memberToDelete
      ∉ handleDeleteMemberSelection true memberToDelete selected)
  /\ (forall other, other <> id memberToDelete ->
        (other ∈ handleDeleteMemberSelection true memberToDelete selected
         <-> other ∈ selected))
  /\ handleDeleteMember false memberToDelete prevMembers = prevMembers
  /\ handleDeleteMemberSelection false memberToDelete selected = selected.
Proof.
  cbn zeta. unfold handleDeleteMember, handleDeleteMemberSelection.
  split; [|split; [|split; [|split; [|split; reflexivity]]]].
  - intros m. rewrite !list_elem_of_In, filter_In, negb_true_iff, Z.eqb_neq.
    reflexivity.
  - induction prevMembers as [|m rest IH]; cbn; [constructor|].
    destruct (negb (id m =? id memberToDelete));
      [now apply sublist_skip | now apply sublist_cons].
  - rewrite elem_of_difference, elem_of_singleton. tauto.
  - intros other Hother. rewrite elem_of_difference, elem_of_singleton. tauto.
Qed.

(** *** Sorting, deleting and importing *)

Section SortingMore.

Context {A : Type} (cmp : A -> A -> Z).




Hypothesis cmp_total : forall a b, 0 < cmp a b -> cmp b a <= 0.
Hypothesis cmp_trans : forall a b c, cmp a b <= 0 -> cmp b c <= 0 -> cmp a c <= 0.



End SortingMore.

Lemma StronglySorted_filter {A} (R : A -> A -> Prop) (p : A -> bool) (l : list A) :
  StronglySorted R l -> StronglySorted R (List.filter p l).
Proof.
  induction 1 as [|x l Hs IH Hx]; cbn [List.filter]; [constructor|].
  destruct (p x); [|exact IH]. constructor; [exact IH|].
  rewrite Forall_forall in *. intros y Hy. apply Hx.
  apply list_elem_of_In. apply list_elem_of_In, filter_In in Hy. tauto.
Qed.

Lemma StronglySorted_map_same {A} (R : A -> A -> Prop) (f : A -> A) (l : list A) :
  (forall a b, R a b -> R (f a) (f b)) ->
  StronglySorted R l -> StronglySorted R (map f l).
Proof.
  intros Hf. induction 1 as [|x l Hs IH Hx]; cbn [map]; constructor; auto.
  rewrite Forall_forall in *. intros y Hy.
  apply list_elem_of_fmap in Hy as [z [-> Hz]]. auto.
Qed.


(** X12.  An accepted and confirmed import installs exactly the members
    of the file, in collation order. *)
Theorem handleImportData_sorted (localeCompare : string -> string -> Z)
    (parsedData : JsValue) (members : list Member) (validated : list JsValue) :
  (forall a b, 0 < localeCompare a b -> localeCompare b a <= 0) ->
  (forall a b c, localeCompare a b <= 0 -> localeCompare b c <= 0 ->
                 localeCompare a c <= 0) ->
  validatedMembers (validateImportedData parsedData) = Some validated ->
  exists typed,
    mapM asMember validated = Some typed
    /\ handleImportData localeCompare parsedData true members ≡ₚ typed
    /\ sortedByName localeCompare
         (handleImportData localeCompare parsedData true members).
Proof.
  intros Htotal Htrans Hv.
  destruct (handleImportData_accepted localeCompare parsedData members
              validated Hv) as [typed [Ht [_ [Hyes _]]]].
  exists typed. rewrite Hyes. split; [exact Ht|]. split.
  - apply sortWith_perm.
  - apply (sortWith_sorted (byName localeCompare)).
    + intros a b. apply Htotal.
    + intros a b c. apply Htrans.
Qed.


(** X14.  All or nothing: the import returns the roster it was given
    unless the file is valid and the operator confirms. *)
Theorem handleImportData_all_or_nothing (localeCompare : string -> string -> Z)
    (parsedData : JsValue) (confirmation : bool) (members : list Member) :
  isValid (validateImportedData parsedData) = false \/ confirmation = false ->
  handleImportData localeCompare parsedData confirmation members = members.
Proof.
  intros H. unfold handleImportData.
  destruct (validatedMembers (validateImportedData parsedData)); [|reflexivity].
  destruct H as [-> | ->]; [reflexivity|]. now rewrite andb_false_r.
Qed.

(** X15.  A roster in collation order stays in order under delete and
    under set-attendance (neither changes a name). *)
Theorem sorted_roster_preserved (localeCompare : string -> string -> Z)
    (roster : list Member) :
  sortedByName localeCompare roster ->
  (forall confirmed memberToDelete,
      sortedByName localeCompare
        (handleDeleteMember confirmed memberToDelete roster))
  /\ (forall memberId date newStatus,
         sortedByName localeCompare
           (handleAttendanceChange memberId date newStatus roster)).
Proof.
  unfold sortedByName. intros Hs. split.
  - intros [|] memberToDelete; unfold handleDeleteMember; [|exact Hs].
    now apply StronglySorted_filter.
  - intros memberId date newStatus. unfold handleAttendanceChange.
    apply StronglySorted_map_same; [|exact Hs].
    intros a b Hab. unfold inOrder, byName in *.
    now destruct (id a =? memberId), (id b =? memberId).
Qed.

(** ** Derived views *)

Lemma filter_filter_and {A} (f g : A -> bool) (l : list A) :
  List.filter g (List.filter f l) = List.filter (fun x => f x && g x) l.
Proof.
  induction l as [|x rest IH]; [reflexivity|]. cbn [List.filter].
  destruct (f x); cbn [List.filter andb]; [|exact IH].
  destruct (g x); now rewrite IH.
Qed.

Lemma statusMatch_status (s : AttendanceStatus) (viewingDate : string) (m : Member) :
  statusMatch (statusName s) viewingDate m = attendanceIs m viewingDate (statusName s).
Proof. unfold statusMatch, attendanceIs. now destruct s. Qed.

(** X16.  The numbers on the status buttons are the sizes of the lists
    behind them: for every position filter and date, total, present and
    absent are the lengths of the filtered view under the status filter
    "all", Present and Absent. *)
Theorem attendanceCounts_match_filter (members : list Member)
    (positionFilter viewingDate : string) :
  let c := attendanceCounts members positionFilter viewingDate in
  total c = length (filteredMembers members positionFilter ALL_FILTER viewingDate)
  /\ present c
     = length (filteredMembers members positionFilter (statusName Present)
                 viewingDate)
  /\ absent c
     = length (filteredMembers members positionFilter (statusName Absent)
                 viewingDate).
Proof.
  cbn zeta. unfold attendanceCounts, filteredMembers. cbn [total present absent].
  rewrite !filter_filter_and. repeat split; f_equal; apply List.filter_ext;
    intros m; [|now rewrite statusMatch_status..].
  unfold statusMatch. rewrite String.eqb_refl. now rewrite andb_true_r.
Qed.

(** X17.  For every position filter, present + absent never exceeds the
    total, and equals it exactly when every member that matches the
    position filter has an entry for the viewing date. *)
Theorem attendanceCounts_bound (members : list Member)
    (positionFilter viewingDate : string) :
  let c := attendanceCounts members positionFilter viewingDate in
  (present c + absent c <= total c)%nat
  /\ ((present c + absent c = total c)%nat
      <-> forall m, m ∈ members -> positionMatch positionFilter m = true ->
                    is_Some (attendance m !! viewingDate)).
Proof.
  cbn zeta. unfold attendanceCounts. cbn [total present absent].
  destruct (counts_step viewingDate
              (List.filter (positionMatch positionFilter) members)) as [Hle Heq].
  split; [exact Hle|]. rewrite Heq, Forall_forall. split.
  - intros H m Hm Hp. apply H. apply list_elem_of_In, filter_In.
    split; [now apply list_elem_of_In | exact Hp].
  - intros H m Hm. apply list_elem_of_In, filter_In in Hm as [Hm Hp].
    apply H; [now apply list_elem_of_In | exact Hp].
Qed.

(** *** Pages *)

Lemma chunks_concat {A} (size : nat) :
  forall (n : nat) (l : list A),
    (length l <= n * size)%nat ->
    concat (map (fun k => take size (drop (k * size) l)) (seq 0 n)) = l.
Proof.
  induction n as [|n IH]; intros l Hlen.
  - destruct l; [reflexivity | cbn in Hlen; lia].
  - cbn [seq map concat]. rewrite <- seq_shift, map_map.
    cbn [Nat.mul]. rewrite drop_0.
    rewrite (map_ext _ (fun k => take size (drop (k * size) (drop size l)))).
    + rewrite IH; [apply take_drop|]. rewrite length_drop. lia.
    + intros k. rewrite drop_drop.
      now replace (S k * size)%nat with (size + k * size)%nat by lia.
Qed.

Lemma ceilDiv_bounds (n d : Z) :
  0 < d -> 0 <= n ->
  0 <= ceilDiv n d /\ n <= ceilDiv n d * d /\ (ceilDiv n d - 1) * d < n + (if n =? 0 then 1 else 0).
Proof.
  unfold ceilDiv. intros Hd Hn.
  pose proof (Z.div_mod (n + d - 1) d ltac:(lia)).
  pose proof (Z.mod_pos_bound (n + d - 1) d Hd).
  assert (0 <= (n + d - 1) / d) by (apply Z.div_pos; lia).
  destruct (n =? 0) eqn:E; [apply Z.eqb_eq in E | apply Z.eqb_neq in E];
    repeat split; nia.
Qed.

Lemma paginate_nat {A} (pageSize : Z) (filtered : list A) (k : nat) :
  0 < pageSize ->
  paginate pageSize filtered (Z.of_nat k + 1)
  = take (Z.to_nat pageSize) (drop (k * Z.to_nat pageSize) filtered).
Proof.
  intros Hs. unfold paginate. cbn zeta.
  rewrite slice_in_range by nia. do 2 f_equal. nia.
Qed.

(** X18.  The pages 1 .. totalPages, one after the other, are the
    filtered sequence: every member is on exactly one page, in order. *)
Theorem pages_cover_all {A} (pageSize : Z) (filtered : list A) :
  0 < pageSize ->
  concat (map (paginate pageSize filtered)
              (pageNumbers (totalPagesFor pageSize filtered)))
  = filtered.
Proof.
  intros Hs. unfold pageNumbers. rewrite map_map.
  rewrite (map_ext _ (fun k => take (Z.to_nat pageSize)
                                 (drop (k * Z.to_nat pageSize) filtered)))
    by (intros k; now apply paginate_nat).
  apply chunks_concat. unfold totalPagesFor.
  pose proof (ceilDiv_bounds (Z.of_nat (length filtered)) pageSize Hs
                ltac:(lia)) as [H0 [H1 _]].
  nia.
Qed.

(** X19.  Every page from 1 to totalPages has a member on it, and every
    page before the last is full. *)
Theorem page_in_range_nonempty {A} (pageSize : Z) (filtered : list A)
    (currentPage : Z) :
  0 < pageSize ->
  1 <= currentPage <= totalPagesFor pageSize filtered ->
  paginate pageSize filtered currentPage <> []
  /\ (currentPage < totalPagesFor pageSize filtered ->
      Z.of_nat (length (paginate pageSize filtered currentPage)) = pageSize).
Proof.
  intros Hs [Hlo Hhi]. unfold totalPagesFor in *.
  set (n := Z.of_nat (length filtered)) in *.
  assert (Hn : 0 <= n) by (subst n; lia).
  pose proof (ceilDiv_bounds n pageSize Hs Hn) as [H0 [H1 H2]].
  assert (Hpos : n <> 0).
  { intros Hz. rewrite Hz in Hhi. unfold ceilDiv in Hhi.
    rewrite Z.div_small in Hhi by lia. lia. }
  apply Z.eqb_neq in Hpos. rewrite Hpos in H2.
  unfold paginate. cbn zeta. rewrite slice_in_range by nia. split.
  - intros Hnil. apply (f_equal length) in Hnil.
    rewrite length_take, length_drop in Hnil. cbn in Hnil. subst n. nia.
  - intros Hlt. rewrite length_take, length_drop. subst n. nia.
Qed.



(** ** Selection and bulk message *)

(** X21.  Ticking a row twice restores the selection; one tick changes
    the membership of that id and of no other. *)
Theorem handleSelectionChange_toggle (memberId : Z) (selected : gset Z) :
  handleSelectionChange memberId (handleSelectionChange memberId selected)
  = selected
  /\ (memberId ∈ handleSelectionChange memberId selected <-> memberId ∉ selected)
  /\ (forall other, other <> memberId ->
        (other ∈ handleSelectionChange memberId selected <-> other ∈ selected)).
Proof.
  assert (Hin : forall (sel : gset Z) other,
             other ∈ handleSelectionChange memberId sel
             <-> (other = memberId /\ memberId ∉ sel)
                 \/ (other <> memberId /\ other ∈ sel)).
  { intros sel other. unfold handleSelectionChange.
    destruct (bool_decide (memberId ∈ sel)) eqn:E.
    - apply bool_decide_eq_true in E.
      rewrite elem_of_difference, elem_of_singleton.
      split; [intros [H1 H2]; now right | intros [[-> H]|[H1 H2]]; tauto].
    - apply bool_decide_eq_false in E.
      rewrite elem_of_union, elem_of_singleton.
      destruct (decide (other = memberId)) as [->|Hne]; tauto. }
  split; [|split].
  - apply set_eq. intros other. rewrite !Hin.
    destruct (decide (other = memberId)) as [->|Hne]; [|tauto].
    destruct (decide (memberId ∈ selected)); tauto.
  - rewrite Hin. tauto.
  - intros other Hne. rewrite Hin. tauto.
Qed.

Lemma forallb_selected (ids : list Z) (selected : gset Z) :
  forallb (fun i => bool_decide (i ∈ selected)) ids = true
  <-> forall i, i ∈ ids -> i ∈ selected.
Proof.
  rewrite forallb_forall. split; intros H i Hi.
  - apply list_elem_of_In in Hi. apply H in Hi.
    now apply bool_decide_eq_true in Hi.
  - apply bool_decide_eq_true. apply H. now apply list_elem_of_In.
Qed.

(** X22.  "Select page": ids that are not on the page keep their
    selection; when the page is non-empty and wholly selected the page is
    deselected, otherwise the whole page is selected. *)
Theorem handleSelectAllVisible_effect (paginated : list Member)
    (selected : gset Z) :
  let r := handleSelectAllVisible paginated selected in
  (forall other, other ∉ map id paginated -> (other ∈ r <-> other ∈ selected))
  /\ (paginated <> [] ->
      (forall m, m ∈ paginated -> id m ∈ selected) ->
      forall m, m ∈ paginated -> id m ∉ r)
  /\ ((exists m, m ∈ paginated /\ id m ∉ selected) ->
      forall m, m ∈ paginated -> id m ∈ r).
Proof.
  cbn zeta. unfold handleSelectAllVisible. cbn zeta.
  destruct (forallb (fun i => bool_decide (i ∈ selected)) (map id paginated))
    eqn:Eall.
  - pose proof (proj1 (forallb_selected _ _) Eall) as Hsel. clear Eall.
    destruct paginated as [|m0 rest].
    + cbn. split; [|split].
      * intros other _. rewrite elem_of_union, elem_of_empty. tauto.
      * intros Hne. contradiction.
      * intros [m [Hm _]]. now apply elem_of_nil in Hm.
    + rewrite length_map. cbn [length Nat.ltb Nat.leb andb]. split; [|split].
      * intros other Hother.
        rewrite elem_of_difference, elem_of_list_to_set. tauto.
      * intros _ _ m Hm. rewrite elem_of_difference, elem_of_list_to_set.
        intros [_ Hnot]. apply Hnot. now apply list_elem_of_fmap_2.
      * intros [m [Hm Hnot]]. exfalso. apply Hnot, Hsel.
        now apply list_elem_of_fmap_2.
  - rewrite andb_false_r. split; [|split].
    + intros other Hother. rewrite elem_of_union, elem_of_list_to_set. tauto.
    + intros _ Hall. exfalso.
      assert (Htrue : forallb (fun i => bool_decide (i ∈ selected))
                        (map id paginated) = true).
      { apply forallb_selected. intros i Hi.
        apply list_elem_of_fmap in Hi as [m [-> Hm]]. now apply Hall. }
      rewrite Htrue in Eall. discriminate Eall.
    + intros _ m Hm. rewrite elem_of_union, elem_of_list_to_set.
      right. now apply list_elem_of_fmap_2.
Qed.

Lemma removeHyphens_clean (s : string) :
  "-"%char ∉ list_ascii_of_string (removeHyphens s).
Proof.
  unfold removeHyphens. rewrite list_ascii_of_string_of_list_ascii.
  intros Hin. apply list_elem_of_In, filter_In in Hin as [_ Hin].
  unfold isHyphen in Hin. now rewrite Ascii.eqb_refl in Hin.
Qed.

(** X23.  The bulk message opens nothing exactly when no member of the
    roster is selected (an empty selection, or only ids that are no
    longer in the roster); otherwise it opens "sms:" followed by one
    recipient per selected member, in roster order, each the member's
    phone without any hyphen. *)
Theorem handleSendSms_spec (selected : gset Z) (members : list Member) :
  (handleSendSms selected members = None
   <-> forall m, m ∈ members -> id m ∉ selected)
  /\ (forall url,
         handleSendSms selected members = Some url ->
         exists recipients,
           url = String.append "sms:" (String.concat "," recipients)
           /\ Forall2 (fun m r => r = removeHyphens (phone m))
                (List.filter (fun m => bool_decide (id m ∈ selected)) members)
                recipients
           /\ Forall (fun r => "-"%char ∉ list_ascii_of_string r) recipients).
Proof.
  unfold handleSendSms.
  set (chosen := List.filter (fun m => bool_decide (id m ∈ selected)) members).
  assert (Hchosen : chosen = [] <-> forall m, m ∈ members -> id m ∉ selected).
  { subst chosen. split.
    - intros Hnil m Hm Hsel.
      assert (Hin : In m (List.filter (fun m => bool_decide (id m ∈ selected))
                            members)).
      { apply filter_In. split; [now apply list_elem_of_In|].
        now apply bool_decide_eq_true. }
      rewrite Hnil in Hin. contradiction.
    - intros Hnone. induction members as [|m rest IH]; [reflexivity|].
      cbn [List.filter]. rewrite bool_decide_eq_false_2 by (apply Hnone; left).
      apply IH. intros m' Hm'. apply Hnone. now right. }
  destruct (size selected =? 0)%nat eqn:Esize.
  - apply Nat.eqb_eq, size_empty_iff in Esize. split.
    + split; [|reflexivity]. intros _ m _. rewrite Esize. apply not_elem_of_empty.
    + intros url H. discriminate H.
  - cbn zeta. rewrite length_map.
    destruct chosen as [|m0 rest] eqn:Ec; cbn [length Nat.ltb Nat.leb].
    + split; [|intros url H; discriminate H].
      split; [intros _; now apply Hchosen | reflexivity].
    + split.
      * split; [intros H; discriminate H|]. intros Hnone.
        apply Hchosen in Hnone. discriminate Hnone.
      * intros url H. injection H as <-.
        exists (map (fun m => removeHyphens (phone m)) (m0 :: rest)).
        split; [reflexivity|]. split.
        -- apply Forall2_fmap_r, Forall_Forall2_diag, Forall_forall. auto.
        -- apply Forall_fmap, Forall_forall. intros m _. cbn.
           apply removeHyphens_clean.
Qed.

(** ** Per-member statistics *)

(** X24.  The counters are nested: present entries are among the counted
    entries, and the month is within the year. *)
Theorem memberStats_counters (getMonth : string -> option Z) (member : Member)
    (year month : Z) :
  let s := memberStats getMonth member year month in
  (presentMonth s <= totalMonth s)%nat
  /\ (totalMonth s <= totalYear s)%nat
  /\ (presentMonth s <= presentYear s)%nat
  /\ (presentYear s <= totalYear s)%nat
  /\ (totalYear s <= size (attendance member))%nat.
Proof.
  cbn zeta. unfold memberStats.
  cbn [presentMonth totalMonth presentYear totalYear].
  repeat split; try apply filter_length_bound.
  - rewrite filter_filter_and.
    rewrite (List.filter_ext _ (fun x => isPresentEntry x
               && match getMonth (fst x) with
                  | Some k => k =? month
                  | None => false
                  end)) by (intros x; apply andb_comm).
    rewrite <- filter_filter_and. apply filter_length_bound.
  - rewrite <- length_map_to_list. apply filter_length_bound.
Qed.


(** ** Loader and legacy migration *)

(** X26.  The migration is one-shot: a migrated array has no [status]
    left in any record when it ran, and loading it again, on the same or
    another day, migrates nothing and changes no date. *)
Theorem migrateLegacy_one_shot (today later : string)
    (parsedMembers : list (list (string * JsValue))) :
  migrateLegacy later (migrateLegacy today parsedMembers)
  = migrateLegacy today parsedMembers
  /\ (forall first rest,
         parsedMembers = first :: rest ->
         getField "status" first <> JUndefined ->
         Forall (fun o => getField "status" o = JUndefined)
           (migrateLegacy today parsedMembers)).
Proof.
  destruct parsedMembers as [|first rest]; [split; [reflexivity|discriminate]|].
  destruct (isUndefined (getField "status" first)) eqn:E.
  - assert (Hm : migrateLegacy today (first :: rest) = first :: rest)
      by (unfold migrateLegacy; now rewrite E).
    rewrite Hm. split.
    + unfold migrateLegacy. now rewrite E.
    + intros f r Heq Hst. injection Heq as <- <-.
      destruct (getField "status" first); try discriminate E. contradiction.
  - assert (Hm : migrateLegacy today (first :: rest)
                 = map (migrateMember today) (first :: rest))
      by (unfold migrateLegacy; now rewrite E).
    rewrite Hm. split.
    + cbn [map]. unfold migrateLegacy.
      destruct (migrateMember_spec today first) as [-> _]. reflexivity.
    + intros _ _ _ _. apply Forall_fmap, Forall_forall. intros o _.
      cbn. apply migrateMember_spec.
Qed.

Lemma isPositionValue_string (v : JsValue) :
  isPositionValue v = true -> typeof v = "string".
Proof. destruct v; cbn [isPositionValue]; first [discriminate | reflexivity]. Qed.

Lemma checkMember_migrated (today : string) (i : nat)
    (member : list (string * JsValue)) :
  dateKeyRegex today = true ->
  legacyRecord member ->
  checkMember i (JObj (migrateMember today member)) = None.
Proof.
  intros Htoday (Hid & Hname & Hpos & Hphone & Hstatus).
  destruct (migrateMember_spec today member) as [_ [Hatt Hframe]].
  unfold checkMember. cbn [getProp isNonNullObject typeof String.eqb
                            Ascii.eqb Bool.eqb andb negb].
  rewrite !Hframe by discriminate. rewrite Hatt.
  rewrite Hid, Hname, Hphone, Hpos, (isPositionValue_string _ Hpos).
  cbn [String.eqb Ascii.eqb Bool.eqb negb orb].
  destruct (truthy (getField "status" member)) eqn:Et;
    cbn [isNonNullObject typeof String.eqb Ascii.eqb Bool.eqb andb negb
         ownEntries checkAttendance]; [|reflexivity].
  now rewrite Htoday, (Hstatus eq_refl).
Qed.

(** X27.  Migrated legacy data is importable data: when the first
    record has a [status], today is a date, and every record has a
    numeric id, a string name, a known position, a string phone and a
    status that is empty or one of the two statuses, the migrated array
    passes the validator unchanged. *)
Theorem migrated_legacy_validates (today : string)
    (first : list (string * JsValue)) (rest : list (list (string * JsValue))) :
  dateKeyRegex today = true ->
  getField "status" first <> JUndefined ->
  Forall legacyRecord (first :: rest) ->
  validateImportedData (JArr (map JObj (migrateLegacy today (first :: rest))))
  = valid (map JObj (migrateLegacy today (first :: rest))).
Proof.
  intros Htoday Hfirst Hall. unfold validateImportedData.
  rewrite validateLoop_pass; [reflexivity|].
  intros j v Hj. unfold migrateLegacy in Hj.
  destruct (getField "status" first) eqn:E; try contradiction;
    cbn [isUndefined negb] in Hj.
  all: rewrite !list_lookup_fmap in Hj;
    destruct ((first :: rest) !! j) as [o|] eqn:Ho; [|discriminate Hj];
    cbn in Hj; injection Hj as <-;
    apply checkMember_migrated; [exact Htoday|];
    rewrite Forall_forall in Hall; apply Hall;
    apply list_elem_of_lookup; now exists j.
Qed.

(** * Worked instances *)

(** ** The stand-in collation is a consistent comparator *)

Lemma ordinalCompare_lt (a b : string) :
  ordinalCompare a b <= 0 <-> a = b \/ OrdersEx.String_as_OT.lt a b.
Proof.
  unfold ordinalCompare.
  destruct (OrdersEx.String_as_OT.compare_spec a b) as [Heq|Hlt|Hgt].
  - split; [now left | lia].
  - split; [now right | lia].
  - split; [lia|]. intros [->|Hlt].
    + now apply (StrictOrder_Irreflexive b) in Hgt.
    + exfalso. apply (StrictOrder_Irreflexive a).
      now apply (StrictOrder_Transitive a b a).
Qed.

Lemma ordinalCompare_total (a b : string) :
  0 < ordinalCompare a b -> ordinalCompare b a <= 0.
Proof.
  intros H. apply ordinalCompare_lt. right. unfold ordinalCompare in H.
  destruct (OrdersEx.String_as_OT.compare_spec a b); [lia | lia | assumption].
Qed.

Lemma ordinalCompare_trans (a b c : string) :
  ordinalCompare a b <= 0 -> ordinalCompare b c <= 0 -> ordinalCompare a c <= 0.
Proof.
  rewrite !ordinalCompare_lt. intros [->|Hab] [->|Hbc]; auto.
  right. now apply (StrictOrder_Transitive a b c).
Qed.

(** ** Instances of the theorems *)









Lemma paginate_spec_witness :
  paginate 15 (seq 0 20) 2 = take 15 (drop 15 (seq 0 20))
  /\ Z.of_nat (length (paginate 15 (seq 0 20) 2)) <= 15
  /\ (totalPagesFor 15 (seq 0 20) < 2 -> paginate 15 (seq 0 20) 2 = []).
Proof.
  exact (paginate_spec 15 (seq 0 20) 2 ltac:(lia) ltac:(lia)).
Defined.




(** C3 as stated fails: a legacy record that is not the first stored
    record is loaded as it is, with its [status] and without attendance,
    when the first record has no [status]. *)
Lemma legacy_record_after_current_kept :
  getField "status" legacyLee = JStr "출석"
  /\ getField "attendance" legacyLee = JUndefined
  /\ migrateLegacy "2024-03-03" [storedKim; legacyLee] = [storedKim; legacyLee]
  /\ loadMembers ordinalCompare "2024-03-03" [storedKim; legacyLee]
     = Some [storedKim; legacyLee].
Proof. repeat split; vm_compute; reflexivity. Qed.

(** ** Further instances *)

(** A legacy array: the status becomes today's entry; an empty status
    leaves the attendance empty. *)
Example migrateLegacy_legacy_array :
  migrateLegacy "2024-03-03"
    [legacyLee; [("id", JNum 3); ("name", JStr "Han"); ("status", JStr "")]]
  = [[("id", JNum 2); ("name", JStr "Lee"); ("position", JStr "성도");
      ("phone", JStr "010-3333-4444");
      ("attendance", JObj [("2024-03-03", JStr "출석")])];
     [("id", JNum 3); ("name", JStr "Han"); ("attendance", JObj [])]].
Proof. vm_compute. reflexivity. Qed.

(** The import scenario of the specification: one member with one
    present entry gives 1 of 1 and the rate "100". *)
Example import_then_stats :
  let roster := handleImportData ordinalCompare (JArr [kimJson]) true [] in
  roster = [kim]
  /\ let s := memberStats isoMonth kim 2024 0 in
     presentMonth s = 1%nat /\ totalMonth s = 1%nat /\ monthRate s = JStr "100".
Proof. split; [|repeat split]; vm_compute; reflexivity. Qed.

Example validate_not_an_array :
  error (validateImportedData (JObj [("not", JStr "an array")])) = Some NotAnArray.
Proof. reflexivity. Qed.

Example rateOf_instances :
  rateOf 1 8 = JStr "13" /\ rateOf 29 200 = JStr "14" /\ rateOf 2 3 = JStr "67"
  /\ rateOf 0 0 = JNum 0.
Proof. repeat split; vm_compute; reflexivity. Qed.

(** ** Instances of the further properties *)

Lemma exampleRoster_sorted : sortedByName ordinalCompare exampleRoster.
Proof.
  unfold sortedByName, exampleRoster.
  repeat (constructor; try (apply Z.leb_le; vm_compute; reflexivity)).
Qed.

Lemma validated_members_wellformed_witness :
  exists typed,
    mapM asMember [kimJson] = Some typed
    /\ length typed = length [kimJson]
    /\ Forall validDates typed.
Proof.
  exact (validated_members_wellformed (JArr [kimJson]) [kimJson] eq_refl).
Defined.

Lemma arrayElementFile_before (j : nat) (m : JsValue) :
  (j < 1)%nat -> arrayElementFile !! j = Some m -> checkMember j m = None.
Proof.
  intros Hj Hm. destruct j as [|j]; [|lia]. injection Hm as <-. reflexivity.
Qed.

Lemma validate_array_element_witness :
  error (validateImportedData (JArr arrayElementFile)) = Some (MissingId (1 + 1)).
Proof.
  exact (validate_array_element arrayElementFile 1 [] eq_refl
           arrayElementFile_before).
Defined.

Lemma exampleRoster_no_march_entry (m : Member) :
  m ∈ exampleRoster -> id m = 1 -> attendance m !! "2024-03-03" = None.
Proof.
  intros Hm _. unfold exampleRoster in Hm.
  apply elem_of_cons in Hm as [->|Hm];
    [|apply elem_of_cons in Hm as [->|Hm]; [|now apply elem_of_nil in Hm]].
  all: now apply lookup_singleton_ne.
Qed.

Lemma handleAttendanceChange_unset_noop_witness :
  handleAttendanceChange 1 "2024-03-03" None exampleRoster = exampleRoster.
Proof.
  exact (handleAttendanceChange_unset_noop 1 "2024-03-03" exampleRoster
           exampleRoster_no_march_entry).
Defined.

Lemma clickAttendance_toggle_witness :
  exists member',
    clickAttendance Present kim "2024-01-07" exampleRoster !! 0%nat = Some member'
    /\ id member' = id kim
    /\ (attendance kim !! "2024-01-07" = Some Present ->
        attendance member' !! "2024-01-07" = None)
    /\ (attendance kim !! "2024-01-07" <> Some Present ->
        attendance member' !! "2024-01-07" = Some Present).
Proof.
  exact (clickAttendance_toggle Present kim "2024-01-07" exampleRoster 0 eq_refl).
Defined.


Lemma handleImportData_sorted_witness :
  exists typed,
    mapM asMember [kimJson] = Some typed
    /\ handleImportData ordinalCompare (JArr [kimJson]) true exampleRoster
       ≡ₚ typed
    /\ sortedByName ordinalCompare
         (handleImportData ordinalCompare (JArr [kimJson]) true exampleRoster).
Proof.
  exact (handleImportData_sorted ordinalCompare (JArr [kimJson]) exampleRoster
           [kimJson] ordinalCompare_total ordinalCompare_trans eq_refl).
Defined.


Lemma handleImportData_all_or_nothing_witness :
  handleImportData ordinalCompare (JArr [kimJson]) false exampleRoster
  = exampleRoster.
Proof.
  exact (handleImportData_all_or_nothing ordinalCompare (JArr [kimJson]) false
           exampleRoster (or_intror eq_refl)).
Defined.

Lemma sorted_roster_preserved_witness :
  (forall confirmed memberToDelete,
      sortedByName ordinalCompare
        (handleDeleteMember confirmed memberToDelete exampleRoster))
  /\ (forall memberId date newStatus,
         sortedByName ordinalCompare
           (handleAttendanceChange memberId date newStatus exampleRoster)).
Proof.
  exact (sorted_roster_preserved ordinalCompare exampleRoster
           exampleRoster_sorted).
Defined.

Lemma pages_cover_all_witness :
  concat (map (paginate 15 (seq 0 20)) (pageNumbers (totalPagesFor 15 (seq 0 20))))
  = seq 0 20.
Proof. exact (pages_cover_all 15 (seq 0 20) ltac:(lia)). Defined.

Lemma twenty_rows_second_page : 1 <= 2 <= totalPagesFor 15 (seq 0 20).
Proof. split; apply Z.leb_le; reflexivity. Qed.

Lemma page_in_range_nonempty_witness :
  paginate 15 (seq 0 20) 2 <> []
  /\ (2 < totalPagesFor 15 (seq 0 20) ->
      Z.of_nat (length (paginate 15 (seq 0 20) 2)) = 15).
Proof.
  exact (page_in_range_nonempty 15 (seq 0 20) 2 ltac:(lia)
           twenty_rows_second_page).
Defined.



Lemma legacyLee_has_status : getField "status" legacyLee <> JUndefined.
Proof. intros H. vm_compute in H. discriminate H. Qed.

Lemma legacy_records : Forall legacyRecord [legacyLee; legacyHan].
Proof.
  repeat constructor; try reflexivity; intros H; vm_compute in H;
    discriminate H.
Qed.

Lemma migrated_legacy_validates_witness :
  validateImportedData
    (JArr (map JObj (migrateLegacy "2024-03-03" [legacyLee; legacyHan])))
  = valid (map JObj (migrateLegacy "2024-03-03" [legacyLee; legacyHan])).
Proof.
  exact (migrated_legacy_validates "2024-03-03" legacyLee [legacyHan] eq_refl
           legacyLee_has_status legacy_records).
Defined.
